(** * A signaling server for peer-to-peer sessions: model and properties

    Source: [signaling-server.js].  The server keeps two process-wide
    maps, [rooms] (room id to room object) and [userSockets] (user id
    to socket id), and reacts to events on socket.io connections.

    The model is a state machine.  A listener runs to completion, or,
    for the [async] join-room listener, to its [await]; it is a
    function from the server state to the new state and the list of
    [emit] calls it made.  The join-room listener is two such functions:
    [on_join_room] runs the checks and [socket.join] (l.54-70) and
    leaves a suspended join behind; [on_join_room_resume] runs the rest
    (l.73-105) for the oldest suspended join.  Any listener may run
    between the two: the listeners of packets that arrived together are
    all called before the first suspended join is resumed.

    A suspended join holds the room object it looked up, not the room
    id.  Room objects therefore carry an address ([Room.ref]); an object
    that has been deleted from [rooms], or replaced there, lives on in
    [detached], where a suspended join that holds it still finds it.

    A field of a client message is a string or [undefined] ([None]);
    other JSON values are not modelled.

    What the socket.io library does is modelled as far as the listeners
    rely on it: a socket is subscribed to the channel named by its own
    id, [socket.join]/[socket.leave] add and remove channels,
    [socket.emit] reaches the socket itself while it is connected,
    [socket.to(c).emit] reaches the live sockets subscribed to [c] other
    than the sender, and [io.to(c).emit] reaches all live sockets
    subscribed to [c].  When a connection is lost the socket has left
    every channel before the [disconnect] listener runs. *)

From stdpp Require Import gmap strings list fin_maps.
From Stdlib Require Import ZArith Ascii.

Local Open Scope string_scope.
Local Open Scope nat_scope.
Local Open Scope stdpp_scope.

(** ** JavaScript values used by the handlers *)

(** [if (x)] on a string: the empty string is the only falsy one. *)
Definition truthy (s : string) : bool :=
  match s with
  | EmptyString => false
  | String _ _ => true
  end.

(** [s.split(sep)[0]]: the characters before the first separator. *)
Fixpoint split_head (sep : ascii) (s : string) : string :=
  match s with
  | EmptyString => EmptyString
  | String c rest =>
      if Ascii.eqb c sep then EmptyString else String c (split_head sep rest)
  end.

(** A JavaScript [Set] keeps insertion order; it is a list that [add]
    never lets contain an element twice. *)
Definition set_add {A} `{EqDecision A} (x : A) (l : list A) : list A :=
  if bool_decide (x ∈ l) then l else l ++ [x].

Definition set_delete {A} `{EqDecision A} (x : A) (l : list A) : list A :=
  filter (λ y, y ≠ x) l.

(** ** Data model *)

Module Room.
Record t := mk {
  id : string;
  type : string;
  creator : option string;
  participants : list (option string);
  createdAt : Z;
  isActive : bool;
  ref : nat
}.

Definition with_participants (ps : list (option string)) (r : t) : t :=
  mk (id r) (type r) (creator r) ps (createdAt r) (isActive r) (ref r).
End Room.

(** The fields the handlers store on a socket object, all [undefined]
    on a new connection, and the channels the socket joined. *)
Module Socket.
Record t := mk {
  userId : option string;
  userName : option string;
  userAvatar : option string;
  roomId : option string;
  joined : list string
}.

Definition fresh : t := mk None None None None [].
End Socket.

(** A join-room listener suspended at its [await]: its socket, the
    fields of the message, and the room object it holds. *)
Module Join.
Record t := mk {
  sid : string;
  roomId : string;
  userId : option string;
  userName : option string;
  userAvatar : option string;
  room : nat
}.
End Join.

Record Server := mkServer {
  rooms : gmap string Room.t;
  detached : gmap nat Room.t;
  next : nat;
  userSockets : gmap (option string) string;
  sockets : gmap string Socket.t;
  suspended : list Join.t
}.

Definition initial : Server := mkServer ∅ ∅ 0 ∅ ∅ [].

(** ** Messages sent to clients *)

Module RosterEntry.
Record t := mk {
  id : option string;
  name : option string;
  avatar : option string;
  isOnline : bool
}.
End RosterEntry.

Inductive Message :=
| room_error (message : string)
| room_joined (roomId type : string) (participants : list RosterEntry.t)
    (isCreator : bool)
| user_joined (userId userName userAvatar : option string)
    (participantsCount : nat)
| offer (senderId senderName sdp type : option string) (timestamp : Z)
| answer (senderId sdp : option string) (timestamp : Z)
| ice_candidate (senderId candidate : option string) (timestamp : Z)
| user_status_changed (userId : option string)
    (isMuted isVideoOn : option bool) (timestamp : Z)
| user_left (userId userName : option string) (participantsCount : nat)
| user_disconnected (userId userName : option string) (reason : string)
| pong (timestamp : Z).

(** The three ways a handler sends: [socket.emit], [socket.to(c).emit]
    and [io.to(c).emit]. *)
Inductive Emit :=
| socket_emit (sid : string) (m : Message)
| socket_to (sid : string) (channel : string) (m : Message)
| io_to (channel : string) (m : Message).

Definition subscribed (channel : string) (sid : string) (s : Socket.t) : Prop :=
  sid = channel ∨ channel ∈ Socket.joined s.

#[global] Instance subscribed_dec channel sid s : Decision (subscribed channel sid s).
Proof. unfold subscribed. apply _. Defined.

(** The live sockets an [emit] reaches, given the connections and
    channel subscriptions of [st]. *)
Definition recipients (st : Server) (e : Emit) : gset string :=
  match e with
  | socket_emit sid _ =>
      match sockets st !! sid with
      | Some _ => {[ sid ]}
      | None => ∅
      end
  | socket_to sid channel _ =>
      dom (filter (λ kv, subscribed channel kv.1 kv.2 ∧ kv.1 ≠ sid) (sockets st))
  | io_to channel _ =>
      dom (filter (λ kv, subscribed channel kv.1 kv.2) (sockets st))
  end.

Definition message_of (e : Emit) : Message :=
  match e with
  | socket_emit _ m | socket_to _ _ m | io_to _ m => m
  end.

(** ** Room objects in and out of the registry *)

(** [rooms.delete(roomId)]: the entry goes; the object it held stays
    in memory under its address. *)
Definition unregister (roomId : string) (st : Server) : Server :=
  match rooms st !! roomId with
  | Some room =>
      mkServer (delete roomId (rooms st))
        (<[Room.ref room := room]> (detached st)) (next st)
        (userSockets st) (sockets st) (suspended st)
  | None => st
  end.

(** ** [POST /create-room] *)

Record CreateResponse := mkCreateResponse {
  resp_roomId : string;
  resp_type : string;
  resp_createdAt : Z
}.

(** [uuid] is the value [uuidv4()] returned; [now] and [now'] are the
    two clock reads.  A body without [type] gets ['video']; a body
    without [userId] leaves the creator [undefined].  [rooms.set] puts a
    new object under the id; an object already stored there is dropped
    from the registry. *)
Definition create_room (userId type : option string) (uuid : string)
    (now now' : Z) (st : Server) : Server * CreateResponse :=
  let type := default "video" type in
  let roomId := "assma-" ++ split_head "-"%char uuid in
  let st' := unregister roomId st in
  (mkServer
     (<[roomId := Room.mk roomId type userId [] now true (next st)]> (rooms st'))
     (detached st') (S (next st)) (userSockets st) (sockets st) (suspended st),
   mkCreateResponse roomId type now').

(** ** Socket handlers *)

(** [io.on('connection')]: a new socket object without user fields. *)
Definition on_connection (sid : string) (st : Server) : Server :=
  mkServer (rooms st) (detached st) (next st) (userSockets st)
    (<[sid := Socket.fresh]> (sockets st)) (suspended st).

(** [rooms.get(roomId)] for a [roomId] that may be [undefined]: no key
    of [rooms] is. *)
Definition rooms_get (roomId : option string) (st : Server) : option Room.t :=
  match roomId with
  | Some r => rooms st !! r
  | None => None
  end.

(** [socket.on('join-room')], up to the [await] (l.54-70): the two
    checks, then [socket.join(roomId)]; the rest of the listener is
    suspended, holding the room object. *)
Definition on_join_room (sid : string)
    (roomId userId userName userAvatar : option string)
    (st : Server) : Server * list Emit :=
  match sockets st !! sid with
  | None => (st, [])
  | Some socket =>
      match roomId, rooms_get roomId st with
      | Some r, Some room =>
          if bool_decide (4 ≤ length (Room.participants room)) then
            (st, [socket_emit sid (room_error "Salle pleine")])
          else
            let socket' :=
              Socket.mk (Socket.userId socket) (Socket.userName socket)
                (Socket.userAvatar socket) (Socket.roomId socket)
                (set_add r (Socket.joined socket)) in
            (mkServer (rooms st) (detached st) (next st) (userSockets st)
               (<[sid := socket']> (sockets st))
               ((suspended st
                 ++ [Join.mk sid r userId userName userAvatar (Room.ref room)])%list),
             [])
      | _, _ => (st, [socket_emit sid (room_error "Salle introuvable")])
      end
  end.

(** The room object a suspended join holds: the one in the registry
    under the room id when that still is the object the join looked up
    (the flag is then [true]), otherwise the detached object at its
    address. *)
Definition held_room (j : Join.t) (st : Server) : option (bool * Room.t) :=
  match rooms st !! Join.roomId j with
  | Some room =>
      if bool_decide (Room.ref room = Join.room j) then Some (true, room)
      else (false,.) <$> detached st !! Join.room j
  | None => (false,.) <$> detached st !! Join.room j
  end.

Definition roster_entry (userId userName userAvatar pid : option string)
    : RosterEntry.t :=
  RosterEntry.mk pid
    (if bool_decide (pid = userId) then userName else Some "Participant")
    (if bool_decide (pid = userId) then userAvatar else Some "👤")
    true.

(** The resumption of the oldest suspended join (l.73-105): the socket
    fields are stored (on a socket that is still connected; the object
    of a lost connection is out of reach), the user id is bound to the
    socket id and added to the room object held, then the two emits. *)
Definition on_join_room_resume (st : Server) : Server * list Emit :=
  match suspended st with
  | [] => (st, [])
  | j :: rest =>
      match held_room j st with
      | None =>
          (mkServer (rooms st) (detached st) (next st) (userSockets st)
             (sockets st) rest, [])
      | Some (registered, room) =>
          let members := set_add (Join.userId j) (Room.participants room) in
          let room' := Room.with_participants members room in
          let sockets' :=
            match sockets st !! Join.sid j with
            | Some socket =>
                <[Join.sid j :=
                    Socket.mk (Join.userId j) (Join.userName j)
                      (Join.userAvatar j) (Some (Join.roomId j))
                      (Socket.joined socket)]> (sockets st)
            | None => sockets st
            end in
          let participants :=
            roster_entry (Join.userId j) (Join.userName j) (Join.userAvatar j)
              <$> members in
          (mkServer
             (if registered then <[Join.roomId j := room']> (rooms st)
              else rooms st)
             (if registered then detached st
              else <[Join.room j := room']> (detached st))
             (next st)
             (<[Join.userId j := Join.sid j]> (userSockets st))
             sockets' rest,
           [socket_emit (Join.sid j)
              (room_joined (Join.roomId j) (Room.type room) participants
                 (bool_decide (Room.creator room = Join.userId j)));
            socket_to (Join.sid j) (Join.roomId j)
              (user_joined (Join.userId j) (Join.userName j)
                 (Join.userAvatar j) (length members))])
      end
  end.

(** A join-room whose resumption runs before any other listener. *)
Definition join_uninterrupted (sid : string)
    (roomId userId userName userAvatar : option string)
    (st : Server) : Server * list Emit :=
  let begun := on_join_room sid roomId userId userName userAvatar st in
  let resumed := on_join_room_resume begun.1 in
  (resumed.1, (begun.2 ++ resumed.2)%list).

(** [socket.on('offer')] *)
Definition on_offer (sid : string) (targetUserId sdp type : option string)
    (now : Z) (st : Server) : Server * list Emit :=
  match sockets st !! sid with
  | None => (st, [])
  | Some socket =>
      match userSockets st !! targetUserId with
      | Some targetSocketId =>
          if truthy targetSocketId then
            (st, [io_to targetSocketId
                    (offer (Socket.userId socket) (Socket.userName socket)
                       sdp type now)])
          else (st, [])
      | None => (st, [])
      end
  end.

(** [socket.on('answer')] *)
Definition on_answer (sid : string) (targetUserId sdp : option string)
    (now : Z) (st : Server) : Server * list Emit :=
  match sockets st !! sid with
  | None => (st, [])
  | Some socket =>
      match userSockets st !! targetUserId with
      | Some targetSocketId =>
          if truthy targetSocketId then
            (st, [io_to targetSocketId
                    (answer (Socket.userId socket) sdp now)])
          else (st, [])
      | None => (st, [])
      end
  end.

(** [socket.on('ice-candidate')] *)
Definition on_ice_candidate (sid : string)
    (targetUserId candidate : option string) (now : Z)
    (st : Server) : Server * list Emit :=
  match sockets st !! sid with
  | None => (st, [])
  | Some socket =>
      match userSockets st !! targetUserId with
      | Some targetSocketId =>
          if truthy targetSocketId then
            (st, [io_to targetSocketId
                    (ice_candidate (Socket.userId socket) candidate now)])
          else (st, [])
      | None => (st, [])
      end
  end.

(** [socket.on('user-status')]; with [socket.roomId] undefined the
    broadcast names no existing channel and reaches nobody. *)
Definition on_user_status (sid : string) (isMuted isVideoOn : option bool)
    (now : Z) (st : Server) : Server * list Emit :=
  match sockets st !! sid with
  | None => (st, [])
  | Some socket =>
      match Socket.roomId socket with
      | Some roomId =>
          (st, [socket_to sid roomId
                  (user_status_changed (Socket.userId socket) isMuted
                     isVideoOn now)])
      | None => (st, [])
      end
  end.

(** The part of the leave and disconnect listeners that runs when
    [rooms.get(socket.roomId)] is an object: both delete the user from
    the room and from [userSockets], send one notification carrying the
    size after the deletion, and delete the room from the registry when
    it is empty.  The result is the state with these changes and the
    participants that remain. *)
Definition depart (roomId : string) (room : Room.t) (socket : Socket.t)
    (st : Server) : Server * list (option string) :=
  let members := set_delete (Socket.userId socket) (Room.participants room) in
  let st' :=
    mkServer (<[roomId := Room.with_participants members room]> (rooms st))
      (detached st) (next st) (delete (Socket.userId socket) (userSockets st))
      (sockets st) (suspended st) in
  if bool_decide (length members = 0) then (unregister roomId st', members)
  else (st', members).

(** [socket.on('leave-room')] *)
Definition on_leave_room (sid : string) (st : Server) : Server * list Emit :=
  match sockets st !! sid with
  | None => (st, [])
  | Some socket =>
      match Socket.roomId socket with
      | None => (st, [])
      | Some roomId =>
          if negb (truthy roomId) then (st, [])
          else
            let socket' :=
              Socket.mk (Socket.userId socket) (Socket.userName socket)
                (Socket.userAvatar socket) None
                (set_delete roomId (Socket.joined socket)) in
            match rooms st !! roomId with
            | Some room =>
                let departed := depart roomId room socket st in
                (mkServer (rooms departed.1) (detached departed.1)
                   (next st) (userSockets departed.1)
                   (<[sid := socket']> (sockets st)) (suspended st),
                 [socket_to sid roomId
                    (user_left (Socket.userId socket) (Socket.userName socket)
                       (length departed.2))])
            | None =>
                (mkServer (rooms st) (detached st) (next st) (userSockets st)
                   (<[sid := socket']> (sockets st)) (suspended st), [])
            end
      end
  end.

(** [socket.on('ping')] *)
Definition on_ping (sid : string) (now : Z) (st : Server) : Server * list Emit :=
  match sockets st !! sid with
  | None => (st, [])
  | Some _ => (st, [socket_emit sid (pong now)])
  end.

(** [socket.on('disconnect')]: the connection is gone, and with it the
    socket's subscriptions, when the listener runs. *)
Definition on_disconnect (sid : string) (st : Server) : Server * list Emit :=
  match sockets st !! sid with
  | None => (st, [])
  | Some socket =>
      let live := delete sid (sockets st) in
      let gone :=
        mkServer (rooms st) (detached st) (next st) (userSockets st) live
          (suspended st) in
      match Socket.roomId socket with
      | None => (gone, [])
      | Some roomId =>
          if negb (truthy roomId) then (gone, [])
          else
            match rooms st !! roomId with
            | Some room =>
                let departed := depart roomId room socket st in
                (mkServer (rooms departed.1) (detached departed.1)
                   (next st) (userSockets departed.1) live (suspended st),
                 [io_to roomId
                    (user_disconnected (Socket.userId socket)
                       (Socket.userName socket) "disconnected")])
            | None => (gone, [])
            end
      end
  end.

(** ** The hourly sweep *)

Definition hour_ms : Z := 60 * 60 * 1000.

Definition stale (now : Z) (room : Room.t) : bool :=
  bool_decide (Room.createdAt room < now - hour_ms)%Z
  && bool_decide (length (Room.participants room) = 0).

(** One run of the [setInterval] callback: the loop visits the entries
    of [rooms] and deletes the stale ones from the map it iterates;
    [rooms.delete] during iteration only affects the deleted entry.
    The loop counts the rooms it deletes, for the log line it prints
    when the count is positive. *)
Definition sweep_step (now : Z) (acc : Server * nat)
    (entry : string * Room.t) : Server * nat :=
  if stale now entry.2 then (unregister entry.1 acc.1, S acc.2) else acc.

Definition sweep_counting (now : Z) (st : Server) : Server * nat :=
  foldl (sweep_step now) (st, 0) (map_to_list (rooms st)).

Definition sweep (now : Z) (st : Server) : Server := (sweep_counting now st).1.

(** ** The server as a state machine *)

Inductive Event :=
| CreateRoom (userId type : option string) (uuid : string) (now now' : Z)
| Connection (sid : string)
| JoinRoom (sid : string) (roomId userId userName userAvatar : option string)
| ResumeJoin
| SendOffer (sid : string) (targetUserId sdp type : option string) (now : Z)
| SendAnswer (sid : string) (targetUserId sdp : option string) (now : Z)
| SendIceCandidate (sid : string) (targetUserId candidate : option string)
    (now : Z)
| UserStatus (sid : string) (isMuted isVideoOn : option bool) (now : Z)
| LeaveRoom (sid : string)
| Ping (sid : string) (now : Z)
| Disconnect (sid : string)
| SweepTick (now : Z).

Definition step (ev : Event) (st : Server) : Server * list Emit :=
  match ev with
  | CreateRoom userId type uuid now now' =>
      ((create_room userId type uuid now now' st).1, [])
  | Connection sid => (on_connection sid st, [])
  | JoinRoom sid roomId userId userName userAvatar =>
      on_join_room sid roomId userId userName userAvatar st
  | ResumeJoin => on_join_room_resume st
  | SendOffer sid targetUserId sdp type now =>
      on_offer sid targetUserId sdp type now st
  | SendAnswer sid targetUserId sdp now => on_answer sid targetUserId sdp now st
  | SendIceCandidate sid targetUserId candidate now =>
      on_ice_candidate sid targetUserId candidate now st
  | UserStatus sid isMuted isVideoOn now =>
      on_user_status sid isMuted isVideoOn now st
  | LeaveRoom sid => on_leave_room sid st
  | Ping sid now => on_ping sid now st
  | Disconnect sid => on_disconnect sid st
  | SweepTick now => (sweep now st, [])
  end.

(** What the libraries guarantee about the values they hand to the
    server: the first group of a version-4 UUID has eight characters,
    and the engine gives a new connection an unused id of twenty
    characters. *)
Definition env_ok (ev : Event) (st : Server) : Prop :=
  match ev with
  | CreateRoom _ _ uuid _ _ => String.length (split_head "-"%char uuid) = 8
  | Connection sid => sockets st !! sid = None ∧ String.length sid = 20
  | _ => True
  end.

Inductive reachable : Server → Prop :=
| reachable_initial : reachable initial
| reachable_step st ev :
    reachable st → env_ok ev st → reachable (step ev st).1.

(** Running a list of events from a state, oldest first. *)
Definition run (evs : list Event) (st : Server) : Server :=
  foldl (λ acc ev, (step ev acc).1) st evs.

Fixpoint all_ok (evs : list Event) (st : Server) : Prop :=
  match evs with
  | [] => True
  | ev :: rest => env_ok ev st ∧ all_ok rest (step ev st).1
  end.

(** ** Invariants of the reachable states *)

(** Room ids have the fourteen characters of 'assma-' and a UUID group,
    and a participant set lists nobody twice.  Socket ids have twenty
    characters, and the room id stored on a socket and the channels it
    joined are room ids.  Bound handles are socket ids.  A suspended
    join names a socket id and a room id. *)
Record room_ok (roomId : string) (room : Room.t) : Prop := mk_room_ok {
  room_key_length : String.length roomId = 14;
  room_nodup : NoDup (Room.participants room)
}.

Record socket_ok (sid : string) (s : Socket.t) : Prop := mk_socket_ok {
  socket_id_length : String.length sid = 20;
  socket_room_length r : Socket.roomId s = Some r → String.length r = 14;
  socket_joined_length c : c ∈ Socket.joined s → String.length c = 14
}.

Definition handle_ok (userId : option string) (handle : string) : Prop :=
  String.length handle = 20.

Record join_ok (j : Join.t) : Prop := mk_join_ok {
  join_sid_length : String.length (Join.sid j) = 20;
  join_room_length : String.length (Join.roomId j) = 14
}.

Record invariant (st : Server) : Prop := mk_invariant {
  inv_rooms : map_Forall room_ok (rooms st);
  inv_sockets : map_Forall socket_ok (sockets st);
  inv_bindings : map_Forall handle_ok (userSockets st);
  inv_suspended : Forall join_ok (suspended st)
}.

(** A room object is stored under its own id, which is 'assma-' and
    eight characters without a dash, and its [isActive] flag is set. *)
Definition room_wf (roomId : string) (room : Room.t) : Prop :=
  Room.id room = roomId ∧ Room.isActive room = true
  ∧ ∃ token, roomId = "assma-" ++ token ∧ String.length token = 8
             ∧ "-"%char ∉ String.list_ascii_of_string token.

(** ** Scenarios used to exercise the theorems *)

Definition sock1 : string := "kX3bT9qLm2ZpR7vYc1Na".
Definition sock2 : string := "Qe7uW0ztPd5HsJ4gVb8M".
Definition sock3 : string := "Zr6yN1oKf8LwUa3Ci9Tx".
Definition sock4 : string := "Hp2mD5jSg0EvBq7Xl4Ru".
Definition sock5 : string := "Wc9aF3nYt6IkOz1Pe8Gs".
Definition uuid1 : string := "ab12cd34-5e6f-4a7b-8c9d-0123456789ab".
Definition uuid2 : string := "ab12cd34-9f0e-4d1c-b2a3-ba9876543210".
Definition uuid3 : string := "77e0c1d2-3b4a-4c5d-9e6f-a1b2c3d4e5f6".
Definition room1 : string := "assma-ab12cd34".
Definition room3 : string := "assma-77e0c1d2".

(** A join-room packet that arrives alone: its listener and, before
    anything else happens, the resumption. *)
Definition join (sid roomId userId userName userAvatar : string) : list Event :=
  [JoinRoom sid (Some roomId) (Some userId) (Some userName) (Some userAvatar);
   ResumeJoin].

(** A room with one participant. *)
Definition one_member : list Event :=
  [CreateRoom (Some "u1") None uuid1 1000 1001;
   Connection sock1; Connection sock2]
  ++ join sock1 room1 "u1" "Alice" "🙂".

(** Two members in a room. *)
Definition two_members : list Event :=
  one_member ++ join sock2 room1 "u2" "Bob" "🤖".

(** A room with three participants and two more connections. *)
Definition three_members : list Event :=
  [CreateRoom (Some "u1") None uuid1 1000 1001;
   Connection sock1; Connection sock2; Connection sock3; Connection sock4;
   Connection sock5]
  ++ join sock1 room1 "u1" "Alice" "🙂"
  ++ join sock2 room1 "u2" "Bob" "🤖"
  ++ join sock3 room1 "u3" "Carol" "c".

(** A room with four participants and a fifth connection. *)
Definition four_members : list Event :=
  three_members ++ join sock4 room1 "u4" "Dave" "d".

(** Two join-room packets that arrive together on one connection, for
    a room with three participants: both listeners run, then both
    resumptions. *)
Definition two_joins_at_once : list Event :=
  three_members
  ++ [JoinRoom sock4 (Some room1) (Some "u4") (Some "Dave") (Some "d");
      JoinRoom sock4 (Some room1) (Some "u5") (Some "Eve") (Some "e");
      ResumeJoin; ResumeJoin].

(** One connection joins twice under two identities and leaves; the
    first identity stays in the room and bound to the connection, which
    no longer is subscribed to the room's channel. *)
Definition rejoined_and_left : list Event :=
  [CreateRoom (Some "u0") None uuid1 1000 1001;
   Connection sock1; Connection sock3]
  ++ join sock1 room1 "u1" "Alice" "🙂"
  ++ join sock1 room1 "u1b" "Alice" "🙂"
  ++ [LeaveRoom sock1].


(** An empty old room, an occupied old room and an empty recent room. *)
Definition mixed_rooms : list Event :=
  [CreateRoom (Some "u1") None uuid1 1000 1001;
   CreateRoom (Some "u9") (Some "audio") uuid3 1000 1001;
   Connection sock1]
  ++ join sock1 room1 "u1" "Alice" "🙂"
  ++ [CreateRoom None None "0badc0de-0000-4000-8000-000000000000" 9000000 9000001].

(** [sock1] still carries the id of a room that is gone: [sock2] joined
    it under the same user id and left, which emptied and deleted it;
    then [sock2] joined another room under that user id. *)
Definition room_gone : list Event :=
  [CreateRoom (Some "u1") None uuid1 1000 1001;
   CreateRoom (Some "u1") None uuid3 1000 1001;
   Connection sock1; Connection sock2]
  ++ join sock1 room1 "u1" "Alice" "🙂"
  ++ join sock2 room1 "u1" "Alice" "🙂"
  ++ [LeaveRoom sock2]
  ++ join sock2 room3 "u1" "Alice" "🙂".

(** ** Runs in which no two listeners overlap *)

(** The listeners that run to their end in one go: all but join-room. *)
Definition runs_to_end (ev : Event) : Prop :=
  match ev with
  | JoinRoom _ _ _ _ _ | ResumeJoin => False
  | _ => True
  end.

(** The states reached when every join-room is resumed before the next
    event. *)
Inductive serial : Server → Prop :=
| serial_initial : serial initial
| serial_join st sid roomId userId userName userAvatar :
    serial st →
    serial (join_uninterrupted sid roomId userId userName userAvatar st).1
| serial_step st ev :
    serial st → env_ok ev st → runs_to_end ev → serial (step ev st).1.

(** A suspended join holds a room object: the registry has it under
    the join's room id, or it is detached. *)
Definition holds_room (st : Server) (j : Join.t) : Prop :=
  (∃ room, rooms st !! Join.roomId j = Some room ∧ Room.ref room = Join.room j)
  ∨ is_Some (detached st !! Join.room j).

(** ** Addresses of room objects *)

(** Every room object has one address: the objects in the registry
    have addresses already given out and different from one another, a
    detached object sits at its own address, and no object is both in
    the registry and detached. *)
Record refs_ok (st : Server) : Prop := mk_refs_ok {
  refs_given : ∀ k room, rooms st !! k = Some room → Room.ref room < next st;
  refs_detached : ∀ a room,
    detached st !! a = Some room → Room.ref room = a ∧ a < next st;
  refs_distinct : ∀ k1 k2 room1 room2,
    rooms st !! k1 = Some room1 → rooms st !! k2 = Some room2 →
    Room.ref room1 = Room.ref room2 → k1 = k2;
  refs_apart : ∀ k room,
    rooms st !! k = Some room → detached st !! Room.ref room = None
}.

(** A connection that carries a room id is subscribed to the channel of
    that room. *)
Definition subscribed_to_own_room (st : Server) : Prop :=
  ∀ sid s roomId,
    sockets st !! sid = Some s → Socket.roomId s = Some roomId →
    roomId ∈ Socket.joined s.

(** No room in the registry holds more than four participants. *)
Definition within_capacity (st : Server) : Prop :=
  ∀ roomId room,
    rooms st !! roomId = Some room → length (Room.participants room) ≤ 4.

(** * Properties *)

(** ** Insertion-ordered sets *)

Section ordered_sets.
Context {A : Type} `{EqDecision A}.
Implicit Types (x y : A) (l : list A).

Lemma elem_of_set_add x y l : y ∈ set_add x l ↔ y = x ∨ y ∈ l.
Proof.
  unfold set_add. case_bool_decide as Hin.
  - split; [by right | by intros [->|]].
  - rewrite elem_of_app, list_elem_of_singleton. tauto.
Qed.

Lemma set_add_NoDup x l : NoDup l → NoDup (set_add x l).
Proof.
  intros Hl. unfold set_add. case_bool_decide as Hin; [done|].
  apply NoDup_app. split_and!; [done| |apply NoDup_singleton].
  intros z Hz ->%list_elem_of_singleton. done.
Qed.

Lemma set_add_member x l : x ∈ l → set_add x l = l.
Proof. intros Hin. unfold set_add. by rewrite bool_decide_eq_true_2. Qed.

Lemma set_add_nonempty x l : set_add x l ≠ [].
Proof.
  unfold set_add. case_bool_decide as Hin.
  - intros ->. by apply elem_of_nil in Hin.
  - by destruct l.
Qed.

Lemma elem_of_set_delete x y l : y ∈ set_delete x l ↔ y ∈ l ∧ y ≠ x.
Proof. unfold set_delete. rewrite list_elem_of_filter. tauto. Qed.

Lemma set_delete_NoDup x l : NoDup l → NoDup (set_delete x l).
Proof. apply NoDup_filter. Qed.

Lemma set_delete_length x l : length (set_delete x l) ≤ length l.
Proof. apply length_filter. Qed.

Lemma not_elem_of_set_delete x l : x ∉ set_delete x l.
Proof. rewrite elem_of_set_delete. tauto. Qed.

Lemma set_delete_notin x l : x ∉ l → set_delete x l = l.
Proof.
  induction l as [|y l IH]; [done|].
  intros [Hne Hnotin]%not_elem_of_cons. unfold set_delete in *.
  rewrite filter_cons_True by congruence. by rewrite IH.
Qed.

Lemma set_delete_add x l : x ∉ l → set_delete x (set_add x l) = l.
Proof.
  intros Hnotin. unfold set_add. rewrite bool_decide_eq_false_2 by done.
  unfold set_delete. rewrite filter_app, filter_cons_False by (by intros ?).
  rewrite filter_nil, app_nil_r. by apply set_delete_notin.
Qed.

Lemma set_delete_member_length x l :
  NoDup l → x ∈ l → S (length (set_delete x l)) = length l.
Proof.
  induction 1 as [|y l Hy Hnd IH]; intros Hin.
  - by apply elem_of_nil in Hin.
  - unfold set_delete in *. destruct (decide (y = x)) as [->|Hne].
    + rewrite filter_cons_False by (by intros ?).
      fold (set_delete x l). by rewrite set_delete_notin.
    + rewrite filter_cons_True by done. simpl. rewrite IH; [done|].
      apply elem_of_cons in Hin as [->|]; done.
Qed.
End ordered_sets.

(** ** Strings *)

Lemma truthy_length s n : String.length s = S n → truthy s = true.
Proof. by destruct s. Qed.

Lemma string_length_app (s t : string) :
  String.length (s ++ t) = String.length s + String.length t.
Proof. induction s as [|c s IH]; simpl; [done | by rewrite IH]. Qed.

(** ** Deleting from the registry *)

Lemma rooms_unregister k st : rooms (unregister k st) = delete k (rooms st).
Proof.
  unfold unregister. destruct (rooms st !! k) eqn:Hk; [done|].
  symmetry. by apply delete_id.
Qed.

Lemma unregister_rest k st :
  next (unregister k st) = next st
  ∧ userSockets (unregister k st) = userSockets st
  ∧ sockets (unregister k st) = sockets st
  ∧ suspended (unregister k st) = suspended st.
Proof. unfold unregister. by destruct (rooms st !! k). Qed.

(** ** The sweep loop *)

Section sweep_loop.
Context (now : Z).
Implicit Types (acc : Server * nat) (l : list (string * Room.t)).

Lemma sweep_fold_rest l acc :
  next (foldl (sweep_step now) acc l).1 = next acc.1
  ∧ userSockets (foldl (sweep_step now) acc l).1 = userSockets acc.1
  ∧ sockets (foldl (sweep_step now) acc l).1 = sockets acc.1
  ∧ suspended (foldl (sweep_step now) acc l).1 = suspended acc.1.
Proof.
  revert acc. induction l as [|[k room] l IH]; intros acc; [done|].
  simpl. unfold sweep_step at 2 4 6 8. simpl.
  destruct (stale now room); [|apply IH].
  destruct (IH (unregister k acc.1, S acc.2)) as (-> & -> & -> & ->).
  apply unregister_rest.
Qed.

Lemma sweep_fold_None l acc k : rooms acc.1 !! k = None →
  rooms (foldl (sweep_step now) acc l).1 !! k = None.
Proof.
  revert acc. induction l as [|[k' room'] l IH]; intros acc Hk; [done|].
  simpl. apply IH. unfold sweep_step. simpl.
  destruct (stale now room'); [|done]. simpl.
  rewrite rooms_unregister, lookup_delete_None. by right.
Qed.

Lemma sweep_fold_stale l acc k room :
  (k, room) ∈ l → stale now room = true →
  rooms (foldl (sweep_step now) acc l).1 !! k = None.
Proof.
  revert acc. induction l as [|[k' room'] l IH]; intros acc Hin Hst.
  - by apply elem_of_nil in Hin.
  - apply elem_of_cons in Hin as [Heq|Hin]; simpl.
    + injection Heq as <- <-. apply sweep_fold_None.
      unfold sweep_step. simpl. rewrite Hst. simpl.
      rewrite rooms_unregister. apply lookup_delete_eq.
    + by apply IH.
Qed.

Lemma sweep_fold_kept l acc k :
  (∀ room, (k, room) ∈ l → stale now room = false) →
  rooms (foldl (sweep_step now) acc l).1 !! k = rooms acc.1 !! k.
Proof.
  revert acc. induction l as [|[k' room'] l IH]; intros acc Hall; [done|].
  simpl. rewrite IH.
  - unfold sweep_step. simpl. destruct (stale now room') eqn:Hst; [|done].
    simpl. rewrite rooms_unregister. apply lookup_delete_ne. intros ->.
    specialize (Hall room' ltac:(left)). congruence.
  - intros room Hin. apply Hall. by right.
Qed.

Lemma sweep_lookup st k :
  rooms (sweep now st) !! k =
    match rooms st !! k with
    | Some room => if stale now room then None else Some room
    | None => None
    end.
Proof.
  unfold sweep, sweep_counting. destruct (rooms st !! k) as [room|] eqn:Hk.
  - destruct (stale now room) eqn:Hst.
    + apply (sweep_fold_stale _ _ _ room); [|done].
      by apply elem_of_map_to_list.
    + rewrite sweep_fold_kept; [done|].
      intros room' Hin%elem_of_map_to_list. congruence.
  - by apply sweep_fold_None.
Qed.

Lemma sweep_rest st :
  next (sweep now st) = next st ∧ userSockets (sweep now st) = userSockets st
  ∧ sockets (sweep now st) = sockets st
  ∧ suspended (sweep now st) = suspended st.
Proof. apply (sweep_fold_rest _ (st, 0)). Qed.
End sweep_loop.

(** ** The invariants hold in every reachable state *)

Lemma invariant_initial : invariant initial.
Proof. split; try apply map_Forall_empty. constructor. Qed.

Lemma unregister_invariant k st : invariant st → invariant (unregister k st).
Proof.
  intros [Hr Hs Hb Hj].
  destruct (unregister_rest k st) as (_ & Hu & Hso & Hsu).
  split; [|by rewrite Hso|by rewrite Hu|by rewrite Hsu].
  rewrite rooms_unregister. by apply map_Forall_delete.
Qed.

Lemma depart_invariant roomId room socket st :
  invariant st → rooms st !! roomId = Some room →
  invariant (depart roomId room socket st).1.
Proof.
  intros [Hr Hs Hb Hj] Hroom. destruct (Hr _ _ Hroom) as [Hlen Hnd].
  assert (invariant
    (mkServer
       (<[roomId := Room.with_participants
                      (set_delete (Socket.userId socket)
                         (Room.participants room)) room]> (rooms st))
       (detached st) (next st) (delete (Socket.userId socket) (userSockets st))
       (sockets st) (suspended st))) as Hinv.
  { split; simpl; [|done|by apply map_Forall_delete|done].
    apply map_Forall_insert_2; [|done]. split; simpl; [done|].
    by apply set_delete_NoDup. }
  unfold depart. case_bool_decide; simpl; [|done].
  by apply unregister_invariant.
Qed.

Lemma create_room_invariant userId type uuid now now' st :
  String.length (split_head "-"%char uuid) = 8 →
  invariant st → invariant (create_room userId type uuid now now' st).1.
Proof.
  intros Hlen Hinv. pose proof Hinv as [Hr Hs Hb Hj].
  destruct (unregister_invariant ("assma-" ++ split_head "-"%char uuid) st Hinv)
    as [Hr' _ _ _].
  split; simpl; [|done..].
  apply map_Forall_insert_2; [|done]. split; simpl.
  - rewrite string_length_app, Hlen. done.
  - apply NoDup_nil_2.
Qed.

Lemma on_connection_invariant sid st :
  String.length sid = 20 → invariant st → invariant (on_connection sid st).
Proof.
  intros Hlen [Hr Hs Hb Hj]. split; simpl; [done| |done|done].
  apply map_Forall_insert_2; [|done].
  split; simpl; [done|done|]. intros c Hc. by apply elem_of_nil in Hc.
Qed.

Lemma on_join_room_invariant sid roomId userId userName userAvatar st :
  invariant st →
  invariant (on_join_room sid roomId userId userName userAvatar st).1.
Proof.
  intros Hinv. pose proof Hinv as [Hr Hs Hb Hj]. unfold on_join_room.
  destruct (sockets st !! sid) as [socket|] eqn:Hsock; [|done].
  destruct roomId as [r|]; [|done]. simpl.
  destruct (rooms st !! r) as [room|] eqn:Hroom; [|done].
  case_bool_decide as Hfull; [done|].
  destruct (Hr _ _ Hroom) as [Hlen Hnd].
  destruct (Hs _ _ Hsock) as [Hsid Hsr Hsj].
  split; simpl; [done| |done|].
  - apply map_Forall_insert_2; [|done]. split; simpl; [done|done|].
    intros c [->|Hc]%elem_of_set_add; [done|by apply Hsj].
  - apply Forall_app. split; [done|]. by repeat constructor.
Qed.

Lemma held_room_registered j st room :
  held_room j st = Some (true, room) → rooms st !! Join.roomId j = Some room.
Proof.
  unfold held_room. destruct (rooms st !! Join.roomId j) as [room'|].
  - case_bool_decide; [congruence|].
    by destruct (detached st !! Join.room j).
  - by destruct (detached st !! Join.room j).
Qed.

Lemma on_join_room_resume_invariant st :
  invariant st → invariant (on_join_room_resume st).1.
Proof.
  intros Hinv. pose proof Hinv as [Hr Hs Hb Hj]. unfold on_join_room_resume.
  destruct (suspended st) as [|j rest] eqn:Hsusp; [done|].
  apply Forall_cons in Hj as [[Hjs Hjr] Hrest].
  destruct (held_room j st) as [[registered room]|] eqn:Hheld; [|by split].
  split; simpl; [| | |done].
  - destruct registered; [|done].
    apply held_room_registered in Hheld. destruct (Hr _ _ Hheld) as [_ Hnd].
    apply map_Forall_insert_2; [|done]. split; simpl; [done|].
    by apply set_add_NoDup.
  - destruct (sockets st !! Join.sid j) as [socket|] eqn:Hsock; [|done].
    destruct (Hs _ _ Hsock) as [_ _ Hsj].
    apply map_Forall_insert_2; [|done]. split; simpl; [done| |done].
    by intros r [= <-].
  - by apply map_Forall_insert_2.
Qed.

Lemma on_leave_room_invariant sid st :
  invariant st → invariant (on_leave_room sid st).1.
Proof.
  intros Hinv. pose proof Hinv as [Hr Hs Hb Hj]. unfold on_leave_room.
  destruct (sockets st !! sid) as [socket|] eqn:Hsock; [|done].
  destruct (Socket.roomId socket) as [roomId|] eqn:Hrid; [|done].
  destruct (truthy roomId); simpl; [|done].
  destruct (Hs _ _ Hsock) as [Hsid Hsr Hsj].
  assert (map_Forall socket_ok
    (<[sid := Socket.mk (Socket.userId socket) (Socket.userName socket)
                (Socket.userAvatar socket) None
                (set_delete roomId (Socket.joined socket))]> (sockets st)))
    as Hsock'.
  { apply map_Forall_insert_2; [|done]. split; simpl; [done|done|].
    intros c [Hc _]%elem_of_set_delete. by apply Hsj. }
  destruct (rooms st !! roomId) as [room|] eqn:Hroom; [|by split].
  destruct (depart_invariant roomId room socket st Hinv Hroom). by split.
Qed.

Lemma on_disconnect_invariant sid st :
  invariant st → invariant (on_disconnect sid st).1.
Proof.
  intros Hinv. pose proof Hinv as [Hr Hs Hb Hj]. unfold on_disconnect.
  destruct (sockets st !! sid) as [socket|] eqn:Hsock; [|done].
  pose proof (map_Forall_delete _ (sockets st) sid Hs) as Hlive.
  destruct (Socket.roomId socket) as [roomId|] eqn:Hrid; [|by split].
  destruct (truthy roomId); simpl; [|by split].
  destruct (rooms st !! roomId) as [room|] eqn:Hroom; [|by split].
  destruct (depart_invariant roomId room socket st Hinv Hroom). by split.
Qed.

Lemma sweep_invariant now st : invariant st → invariant (sweep now st).
Proof.
  intros [Hr Hs Hb Hj]. destruct (sweep_rest now st) as (_ & Hu & Hso & Hsu).
  split; [|by rewrite Hso|by rewrite Hu|by rewrite Hsu].
  intros k room Hk. rewrite sweep_lookup in Hk.
  destruct (rooms st !! k) as [room0|] eqn:Hk0; [|done].
  destruct (stale now room0); [done|]. injection Hk as <-. by apply Hr.
Qed.

Lemma on_offer_state sid targetUserId sdp type now st :
  (on_offer sid targetUserId sdp type now st).1 = st.
Proof. unfold on_offer. by repeat case_match. Qed.

Lemma on_answer_state sid targetUserId sdp now st :
  (on_answer sid targetUserId sdp now st).1 = st.
Proof. unfold on_answer. by repeat case_match. Qed.

Lemma on_ice_candidate_state sid targetUserId candidate now st :
  (on_ice_candidate sid targetUserId candidate now st).1 = st.
Proof. unfold on_ice_candidate. by repeat case_match. Qed.

Lemma on_user_status_state sid isMuted isVideoOn now st :
  (on_user_status sid isMuted isVideoOn now st).1 = st.
Proof. unfold on_user_status. by repeat case_match. Qed.

Lemma on_ping_state sid now st : (on_ping sid now st).1 = st.
Proof. unfold on_ping. by repeat case_match. Qed.

Lemma step_invariant ev st :
  env_ok ev st → invariant st → invariant (step ev st).1.
Proof.
  intros Hok Hinv. destruct ev; simpl in Hok; cbn [step fst].
  - by apply create_room_invariant.
  - apply on_connection_invariant; tauto.
  - by apply on_join_room_invariant.
  - by apply on_join_room_resume_invariant.
  - by rewrite on_offer_state.
  - by rewrite on_answer_state.
  - by rewrite on_ice_candidate_state.
  - by rewrite on_user_status_state.
  - by apply on_leave_room_invariant.
  - by rewrite on_ping_state.
  - by apply on_disconnect_invariant.
  - by apply sweep_invariant.
Qed.

Lemma reachable_invariant st : reachable st → invariant st.
Proof.
  induction 1 as [|st ev _ IH Hok]; [apply invariant_initial|].
  by apply step_invariant.
Qed.

Lemma run_reachable evs st :
  reachable st → all_ok evs st → reachable (run evs st).
Proof.
  revert st. induction evs as [|ev evs IH]; intros st Hst Hok; [done|].
  destruct Hok as [Hev Hrest]. simpl. apply IH; [|done].
  by apply reachable_step.
Qed.

Lemma one_member_reachable : reachable (run one_member initial).
Proof. apply run_reachable; [constructor | vm_compute; repeat split]. Qed.

Lemma two_members_reachable : reachable (run two_members initial).
Proof. apply run_reachable; [constructor | vm_compute; repeat split]. Qed.

Lemma three_members_reachable : reachable (run three_members initial).
Proof. apply run_reachable; [constructor | vm_compute; repeat split]. Qed.

Lemma four_members_reachable : reachable (run four_members initial).
Proof. apply run_reachable; [constructor | vm_compute; repeat split]. Qed.

Lemma two_joins_at_once_reachable : reachable (run two_joins_at_once initial).
Proof. apply run_reachable; [constructor | vm_compute; repeat split]. Qed.

Lemma rejoined_and_left_reachable : reachable (run rejoined_and_left initial).
Proof. apply run_reachable; [constructor | vm_compute; repeat split]. Qed.


Lemma mixed_rooms_reachable : reachable (run mixed_rooms initial).
Proof. apply run_reachable; [constructor | vm_compute; repeat split]. Qed.

Lemma room_gone_reachable : reachable (run room_gone initial).
Proof. apply run_reachable; [constructor | vm_compute; repeat split]. Qed.

(** ** Capacity *)

(** C1: the claim fails on the code.  The size test (l.64) and the add
    (l.79) are separated by the [await] (l.70): two join-room packets
    that arrive together on one connection, for a room with three
    participants, both pass the test before either adds, and the room
    ends with five participants; the last user-joined carries the
    count 5. *)
Theorem capacity_exceeded :
  reachable (run two_joins_at_once initial)
  ∧ Room.participants <$> rooms (run three_members initial) !! room1
    = Some [Some "u1"; Some "u2"; Some "u3"]
  ∧ Room.participants <$> rooms (run two_joins_at_once initial) !! room1
    = Some [Some "u1"; Some "u2"; Some "u3"; Some "u4"; Some "u5"]
  ∧ (step ResumeJoin
       (run (three_members
             ++ [JoinRoom sock4 (Some room1) (Some "u4") (Some "Dave") (Some "d");
                 JoinRoom sock4 (Some room1) (Some "u5") (Some "Eve") (Some "e");
                 ResumeJoin])
          initial)).2
    = [socket_emit sock4
         (room_joined room1 "video"
            [RosterEntry.mk (Some "u1") (Some "Participant") (Some "👤") true;
             RosterEntry.mk (Some "u2") (Some "Participant") (Some "👤") true;
             RosterEntry.mk (Some "u3") (Some "Participant") (Some "👤") true;
             RosterEntry.mk (Some "u4") (Some "Participant") (Some "👤") true;
             RosterEntry.mk (Some "u5") (Some "Eve") (Some "e") true]
            false);
       socket_to sock4 room1
         (user_joined (Some "u5") (Some "Eve") (Some "e") 5)].
Proof.
  split; [exact two_joins_at_once_reachable|].
  split_and!; vm_compute; reflexivity.
Qed.

(** ** Emptied rooms *)

Lemma reachable_roomId_truthy st sid socket roomId :
  reachable st → sockets st !! sid = Some socket →
  Socket.roomId socket = Some roomId → truthy roomId = true.
Proof.
  intros Hst Hs Hrid. destruct (reachable_invariant st Hst) as [_ Hsock _ _].
  destruct (Hsock _ _ Hs) as [_ Hlen _].
  by apply (truthy_length _ 13), Hlen.
Qed.

Lemma reachable_room_truthy st roomId room :
  reachable st → rooms st !! roomId = Some room → truthy roomId = true.
Proof.
  intros Hst Hroom. destruct (reachable_invariant st Hst) as [Hr _ _ _].
  destruct (Hr _ _ Hroom) as [Hlen _]. by apply (truthy_length _ 13).
Qed.

Lemma depart_rooms roomId room socket st :
  rooms (depart roomId room socket st).1
  = (if bool_decide
          (length (set_delete (Socket.userId socket) (Room.participants room))
           = 0)
     then delete roomId (rooms st)
     else <[roomId := Room.with_participants
                        (set_delete (Socket.userId socket)
                           (Room.participants room)) room]> (rooms st)).
Proof.
  unfold depart. case_bool_decide; simpl; [|done].
  rewrite rooms_unregister. simpl. apply delete_insert_eq.
Qed.

Lemma depart_rest roomId room socket st :
  userSockets (depart roomId room socket st).1
  = delete (Socket.userId socket) (userSockets st)
  ∧ (depart roomId room socket st).2
    = set_delete (Socket.userId socket) (Room.participants room).
Proof.
  unfold depart. case_bool_decide; simpl; [|done].
  split; [apply unregister_rest | done].
Qed.

(** C2: when a leave-room or a disconnect of a connection takes the
    last participant out of the connection's room, so that the
    participant set is empty after the removal, the same handler run
    deletes the room: it is absent from the registry in the state the
    handler returns. *)
Theorem emptied_room_deleted st sid socket roomId room :
  reachable st → sockets st !! sid = Some socket →
  Socket.roomId socket = Some roomId → rooms st !! roomId = Some room →
  set_delete (Socket.userId socket) (Room.participants room) = [] →
  rooms (on_leave_room sid st).1 !! roomId = None
  ∧ rooms (on_disconnect sid st).1 !! roomId = None.
Proof.
  intros Hst Hs Hrid Hroom Hempty.
  pose proof (reachable_roomId_truthy _ _ _ _ Hst Hs Hrid) as Htruthy.
  unfold on_leave_room, on_disconnect. rewrite Hs, Hrid, Htruthy, Hroom.
  cbn [negb fst rooms]. rewrite depart_rooms, Hempty. simpl.
  split; apply lookup_delete_eq.
Qed.

Lemma emptied_room_deleted_witness :
  is_Some (rooms (run one_member initial) !! room1)
  ∧ rooms (on_leave_room sock1 (run one_member initial)).1 !! room1 = None
  ∧ rooms (on_disconnect sock1 (run one_member initial)).1 !! room1 = None.
Proof.
  set (st := run one_member initial). split; [vm_compute; eauto|].
  apply (emptied_room_deleted st sock1
           (Socket.mk (Some "u1") (Some "Alice") (Some "🙂") (Some room1) [room1])
           room1
           (Room.mk room1 "video" (Some "u1") [Some "u1"] 1000 true 0));
    [exact one_member_reachable | vm_compute; reflexivity..].
Defined.

(** ** Who receives an emit *)

Lemma elem_of_recipients_io st channel m x :
  x ∈ recipients st (io_to channel m)
  ↔ ∃ s, sockets st !! x = Some s ∧ subscribed channel x s.
Proof.
  simpl. rewrite elem_of_dom. unfold is_Some.
  setoid_rewrite map_lookup_filter_Some. simpl. done.
Qed.

Lemma elem_of_recipients_to st sid channel m x :
  x ∈ recipients st (socket_to sid channel m)
  ↔ ∃ s, sockets st !! x = Some s ∧ subscribed channel x s ∧ x ≠ sid.
Proof.
  simpl. rewrite elem_of_dom. unfold is_Some.
  setoid_rewrite map_lookup_filter_Some. simpl. done.
Qed.


(** A channel named by a room id reaches the sockets that joined it. *)
Lemma joined_channel st sid socket roomId x s :
  reachable st → sockets st !! sid = Some socket →
  Socket.roomId socket = Some roomId → sockets st !! x = Some s →
  subscribed roomId x s ↔ roomId ∈ Socket.joined s.
Proof.
  intros Hst Hs Hrid Hx. destruct (reachable_invariant st Hst) as [_ Hsock _ _].
  destruct (Hsock _ _ Hs) as [_ Hlen _]. specialize (Hlen _ Hrid).
  destruct (Hsock _ _ Hx) as [Hlen' _ _].
  unfold subscribed. split; [|by right]. intros [->|]; [congruence | done].
Qed.

(** ** Relay *)




(** ** Unknown rooms *)

(** C4: a join-room request from a live connection naming a room id
    that is not in the registry (or naming none) sends the requester the
    room-error 'Salle introuvable' and returns the state it was given:
    registry, participant sets, bindings, sockets and suspended joins
    are unchanged. *)
Theorem join_unknown_room st sid socket roomId userId userName userAvatar :
  sockets st !! sid = Some socket → rooms_get roomId st = None →
  on_join_room sid roomId userId userName userAvatar st
  = (st, [socket_emit sid (room_error "Salle introuvable")]).
Proof.
  intros Hs Hr. unfold on_join_room. rewrite Hs.
  destruct roomId as [r|]; [|done]. by rewrite Hr.
Qed.

Lemma join_unknown_room_witness :
  on_join_room sock2 (Some room3) (Some "u2") (Some "Bob") (Some "🤖")
    (run one_member initial)
  = (run one_member initial,
     [socket_emit sock2 (room_error "Salle introuvable")]).
Proof.
  apply (join_unknown_room (run one_member initial) sock2 Socket.fresh);
    vm_compute; reflexivity.
Defined.

(** ** The sweep *)

(** C5: one run of the sweep deletes exactly the rooms that are stale,
    that is, have no participant and were created more than an hour
    (3 600 000 ms) before [now]; every other room stays as it was, so a
    room with a participant survives whatever its age; bindings and
    sockets are untouched. *)
Theorem sweep_exact now st :
  rooms (sweep now st)
  = filter (λ kv, ¬ ((Room.createdAt kv.2 < now - 3600000)%Z
                     ∧ length (Room.participants kv.2) = 0)) (rooms st)
  ∧ userSockets (sweep now st) = userSockets st
  ∧ sockets (sweep now st) = sockets st
  ∧ (∀ roomId room,
       rooms st !! roomId = Some room → Room.participants room ≠ [] →
       rooms (sweep now st) !! roomId = Some room).
Proof.
  assert (∀ room, stale now room = true
    ↔ (Room.createdAt room < now - 3600000)%Z
      ∧ length (Room.participants room) = 0) as Hstale.
  { intros room. unfold stale, hour_ms.
    rewrite andb_true_iff, !bool_decide_eq_true. done. }
  split_and!; [|apply sweep_rest|apply sweep_rest|].
  - apply map_eq. intros k. rewrite sweep_lookup.
    destruct (rooms st !! k) as [room|] eqn:Hk.
    + destruct (stale now room) eqn:Hst.
      * symmetry. apply map_lookup_filter_None. right.
        intros room' Hk' Hkeep. simpl in Hkeep.
        assert (room' = room) as -> by congruence.
        by apply Hkeep, Hstale.
      * symmetry. apply map_lookup_filter_Some. split; [done|]. simpl.
        intros Hs%Hstale. congruence.
    + symmetry. apply map_lookup_filter_None. left. done.
  - intros roomId room Hroom Hne. rewrite sweep_lookup, Hroom.
    destruct (stale now room) eqn:Hst; [|done].
    apply Hstale in Hst as [_ Hlen]. by destruct (Room.participants room).
Qed.

Lemma sweep_exact_witness :
  (rooms (sweep 10000000 (run mixed_rooms initial)) !! room1
   = Some (Room.mk room1 "video" (Some "u1") [Some "u1"] 1000 true 0))
  ∧ is_Some (rooms (run mixed_rooms initial) !! room3)
  ∧ rooms (sweep 10000000 (run mixed_rooms initial)) !! room3 = None
  ∧ is_Some (rooms (sweep 10000000 (run mixed_rooms initial))
               !! "assma-0badc0de").
Proof.
  set (st := run mixed_rooms initial). split_and!.
  - apply (proj2 (proj2 (proj2 (sweep_exact 10000000 st))));
      [vm_compute; reflexivity | done].
  - vm_compute. eauto.
  - vm_compute. reflexivity.
  - vm_compute. eauto.
Defined.

(** ** Leaving twice *)

(** C6: leave-room on a live connection that is in no room (it never
    joined, or it left) returns the state unchanged and emits nothing;
    hence a second leave-room right after a first one, whatever the
    first did, changes nothing and emits nothing. *)
Theorem leave_twice :
  (∀ st sid socket,
     sockets st !! sid = Some socket → Socket.roomId socket = None →
     on_leave_room sid st = (st, []))
  ∧ (∀ st sid,
       on_leave_room sid (on_leave_room sid st).1
       = ((on_leave_room sid st).1, [])).
Proof.
  split.
  - intros st sid socket Hs Hrid. unfold on_leave_room. by rewrite Hs, Hrid.
  - intros st sid.
    destruct (sockets st !! sid) as [socket|] eqn:Hs;
      [|by unfold on_leave_room; rewrite Hs; simpl; rewrite Hs].
    destruct (Socket.roomId socket) as [roomId|] eqn:Hrid;
      [|by unfold on_leave_room; rewrite Hs, Hrid; simpl; rewrite Hs, Hrid].
    destruct (truthy roomId) eqn:Htruthy;
      [|by unfold on_leave_room; rewrite Hs, Hrid, Htruthy; simpl;
           rewrite Hs, Hrid, Htruthy].
    unfold on_leave_room at 2 3. rewrite Hs, Hrid, Htruthy. simpl.
    destruct (rooms st !! roomId) as [room|];
      unfold on_leave_room; simpl; by rewrite lookup_insert_eq.
Qed.

Lemma leave_twice_witness :
  on_leave_room sock2 (run one_member initial) = (run one_member initial, [])
  ∧ on_leave_room sock1 (on_leave_room sock1 (run one_member initial)).1
    = ((on_leave_room sock1 (run one_member initial)).1, []).
Proof.
  split.
  - apply (proj1 leave_twice _ sock2 Socket.fresh); vm_compute; reflexivity.
  - apply (proj2 leave_twice).
Defined.

(** ** Room ids *)

(** C7, as the claim states it, fails: two different UUIDs that share
    their first group give the same room id, and the second create-room
    replaces the occupied room stored under it by a new empty one. *)
Lemma create_room_replaces_occupied :
  reachable (run one_member initial)
  ∧ env_ok (CreateRoom (Some "u7") None uuid2 2000 2001) (run one_member initial)
  ∧ uuid2 ≠ uuid1
  ∧ resp_roomId
      (create_room (Some "u7") None uuid2 2000 2001 (run one_member initial)).2
    = room1
  ∧ rooms (run one_member initial) !! room1
    = Some (Room.mk room1 "video" (Some "u1") [Some "u1"] 1000 true 0)
  ∧ rooms (create_room (Some "u7") None uuid2 2000 2001
             (run one_member initial)).1 !! room1
    = Some (Room.mk room1 "video" (Some "u7") [] 2000 true 1).
Proof.
  split; [exact one_member_reachable|].
  split_and!; try (vm_compute; reflexivity). discriminate.
Qed.

(** C7 (amended): create-room answers with the id 'assma-' followed by
    the first group of the UUID it drew, and stores under that id a new
    room with the requested type (default 'video'), the requester as
    creator and no participant, without looking whether the id is in
    use; rooms under other ids, bindings and sockets are unchanged, so
    when the id was not in use no existing room is changed. *)
Theorem create_room_stores userId type uuid now now' st :
  let roomId := "assma-" ++ split_head "-"%char uuid in
  let result := create_room userId type uuid now now' st in
  resp_roomId result.2 = roomId
  ∧ rooms result.1 !! roomId
    = Some (Room.mk roomId (default "video" type) userId [] now true (next st))
  ∧ (∀ k, k ≠ roomId → rooms result.1 !! k = rooms st !! k)
  ∧ (rooms st !! roomId = None →
     ∀ k room, rooms st !! k = Some room → rooms result.1 !! k = Some room)
  ∧ userSockets result.1 = userSockets st
  ∧ sockets result.1 = sockets st.
Proof.
  intros roomId result. simpl. split_and!; try done.
  - apply lookup_insert_eq.
  - intros k Hk. rewrite lookup_insert_ne, rooms_unregister by done.
    by apply lookup_delete_ne.
  - intros Hfree k room Hroom.
    rewrite lookup_insert_ne, rooms_unregister, lookup_delete_ne;
      fold roomId; congruence.
Qed.

Lemma create_room_stores_witness :
  rooms (create_room (Some "u9") (Some "audio") uuid3 2000 2001
           (run one_member initial)).1 !! room1
  = Some (Room.mk room1 "video" (Some "u1") [Some "u1"] 1000 true 0).
Proof.
  apply (proj1 (proj2 (proj2 (proj2
    (create_room_stores (Some "u9") (Some "audio") uuid3 2000 2001
       (run one_member initial))))));
    vm_compute; reflexivity.
Defined.

(** ** Joins that run without interruption *)

Lemma on_join_room_success sid r userId userName userAvatar st socket room :
  sockets st !! sid = Some socket → rooms st !! r = Some room →
  length (Room.participants room) < 4 →
  on_join_room sid (Some r) userId userName userAvatar st
  = (mkServer (rooms st) (detached st) (next st) (userSockets st)
       (<[sid := Socket.mk (Socket.userId socket) (Socket.userName socket)
                   (Socket.userAvatar socket) (Socket.roomId socket)
                   (set_add r (Socket.joined socket))]> (sockets st))
       (suspended st
        ++ [Join.mk sid r userId userName userAvatar (Room.ref room)])%list,
     []).
Proof.
  intros Hs Hr Hfree. unfold on_join_room. rewrite Hs. simpl. rewrite Hr.
  by rewrite bool_decide_eq_false_2 by lia.
Qed.

Lemma held_room_own r room st sid userId userName userAvatar :
  rooms st !! r = Some room →
  held_room (Join.mk sid r userId userName userAvatar (Room.ref room)) st
  = Some (true, room).
Proof.
  intros Hr. unfold held_room. simpl. rewrite Hr.
  by rewrite bool_decide_eq_true_2.
Qed.

Lemma join_uninterrupted_success sid r userId userName userAvatar st socket room :
  suspended st = [] → sockets st !! sid = Some socket →
  rooms st !! r = Some room → length (Room.participants room) < 4 →
  join_uninterrupted sid (Some r) userId userName userAvatar st
  = (mkServer
       (<[r := Room.with_participants
                 (set_add userId (Room.participants room)) room]> (rooms st))
       (detached st) (next st) (<[userId := sid]> (userSockets st))
       (<[sid := Socket.mk userId userName userAvatar (Some r)
                   (set_add r (Socket.joined socket))]> (sockets st))
       [],
     [socket_emit sid
        (room_joined r (Room.type room)
           (roster_entry userId userName userAvatar
              <$> set_add userId (Room.participants room))
           (bool_decide (Room.creator room = userId)));
      socket_to sid r
        (user_joined userId userName userAvatar
           (length (set_add userId (Room.participants room))))]).
Proof.
  intros Hsusp Hs Hr Hfree. unfold join_uninterrupted.
  rewrite (on_join_room_success _ _ _ _ _ _ _ _ Hs Hr Hfree).
  cbn [fst snd]. unfold on_join_room_resume. cbn [suspended].
  rewrite Hsusp. cbn [app]. rewrite held_room_own by done.
  cbn [Join.sid Join.roomId Join.userId Join.userName Join.userAvatar
         sockets rooms detached next userSockets Socket.joined].
  rewrite lookup_insert_eq, insert_insert_eq. done.
Qed.

Lemma join_uninterrupted_cases sid roomId userId userName userAvatar st :
  suspended st = [] →
  (join_uninterrupted sid roomId userId userName userAvatar st).1 = st
  ∨ ∃ r socket room,
      roomId = Some r ∧ sockets st !! sid = Some socket
      ∧ rooms st !! r = Some room ∧ length (Room.participants room) < 4.
Proof.
  intros Hsusp.
  assert ((on_join_room_resume st).1 = st) as Hidle
    by (unfold on_join_room_resume; by rewrite Hsusp).
  unfold join_uninterrupted, on_join_room.
  destruct (sockets st !! sid) as [socket|] eqn:Hs; [|by left].
  destruct roomId as [r|]; [|by left]. simpl.
  destruct (rooms st !! r) as [room|] eqn:Hr; [|by left].
  case_bool_decide; [by left|]. right. exists r, socket, room.
  split_and!; [done..|lia].
Qed.

Lemma roster_ids userId userName userAvatar (members : list (option string)) :
  RosterEntry.id <$> (roster_entry userId userName userAvatar <$> members)
  = members.
Proof.
  induction members as [|m ms IH]; [done|].
  rewrite !fmap_cons, IH. done.
Qed.

(** C8: the claim fails on the code.  "u1" is a participant of the
    room (the roster sent to the joiner lists it) and is bound to a live
    connection, yet that connection gets no user-joined notification
    when "u3" joins: the notification goes to the room's channel
    (l.97), which the connection left with its leave-room under another
    identity, while the leave-room removed that other identity only. *)
Theorem participant_not_notified :
  reachable (run rejoined_and_left initial)
  ∧ (join_uninterrupted sock3 (Some room1) (Some "u3") (Some "Carol") (Some "c")
       (run rejoined_and_left initial)).2
    = [socket_emit sock3
         (room_joined room1 "video"
            [RosterEntry.mk (Some "u1") (Some "Participant") (Some "👤") true;
             RosterEntry.mk (Some "u3") (Some "Carol") (Some "c") true] false);
       socket_to sock3 room1
         (user_joined (Some "u3") (Some "Carol") (Some "c") 2)]
  ∧ Room.participants
      <$> rooms
            (join_uninterrupted sock3 (Some room1) (Some "u3") (Some "Carol")
               (Some "c") (run rejoined_and_left initial)).1 !! room1
    = Some [Some "u1"; Some "u3"]
  ∧ userSockets
      (join_uninterrupted sock3 (Some room1) (Some "u3") (Some "Carol")
         (Some "c") (run rejoined_and_left initial)).1 !! Some "u1"
    = Some sock1
  ∧ is_Some
      (sockets
         (join_uninterrupted sock3 (Some room1) (Some "u3") (Some "Carol")
            (Some "c") (run rejoined_and_left initial)).1 !! sock1)
  ∧ sock1 ∉ recipients
      (join_uninterrupted sock3 (Some room1) (Some "u3") (Some "Carol")
         (Some "c") (run rejoined_and_left initial)).1
      (socket_to sock3 room1
         (user_joined (Some "u3") (Some "Carol") (Some "c") 2)).
Proof.
  split; [exact rejoined_and_left_reachable|].
  split_and!; try (vm_compute; reflexivity).
  - vm_compute. eauto.
  - apply (bool_decide_eq_false_1 _). vm_compute. reflexivity.
Qed.

(** ** A superseded connection goes away *)

Lemma disconnect_unbinds st sid socket roomId room :
  sockets st !! sid = Some socket →
  Socket.roomId socket = Some roomId → truthy roomId = true →
  rooms st !! roomId = Some room →
  userSockets (on_disconnect sid st).1 !! Socket.userId socket = None
  ∧ (∀ room', rooms (on_disconnect sid st).1 !! roomId = Some room' →
              Socket.userId socket ∉ Room.participants room')
  ∧ sockets (on_disconnect sid st).1 = delete sid (sockets st).
Proof.
  intros Hs Hrid Htruthy Hroom. unfold on_disconnect.
  rewrite Hs, Hrid, Htruthy, Hroom. cbn [negb fst rooms userSockets sockets].
  rewrite depart_rooms. destruct (depart_rest roomId room socket st) as [-> _].
  split_and!; [apply lookup_delete_eq| |done].
  intros room'. case_bool_decide.
  - by rewrite lookup_delete_eq.
  - rewrite lookup_insert_eq. intros [= <-]. simpl.
    apply not_elem_of_set_delete.
Qed.

Lemma relay_unbound_dropped st targetUserId :
  userSockets st !! targetUserId = None →
  ∀ sid now,
    (∀ sdp type, on_offer sid targetUserId sdp type now st = (st, []))
    ∧ (∀ sdp, on_answer sid targetUserId sdp now st = (st, []))
    ∧ (∀ candidate,
         on_ice_candidate sid targetUserId candidate now st = (st, [])).
Proof.
  intros Hnone sid now. unfold on_offer, on_answer, on_ice_candidate.
  rewrite Hnone. by destruct (sockets st !! sid).
Qed.

(** C9: connection [h1] joins a room as [userId], then another
    connection [h2] joins as the same [userId] and takes over the
    binding (each join runs to its end before the next event).  When
    [h1] then disconnects, [userId] is removed from the bindings and
    from the participant set of [h1]'s room although [h2] is still
    connected, and every offer, answer or ice-candidate addressed to
    [userId] afterwards is dropped without any emit. *)
Theorem superseded_disconnect_unbinds st h1 h2 roomId room userId
    userName1 userAvatar1 roomId2 userName2 userAvatar2 :
  reachable st → suspended st = [] → h1 ≠ h2 → is_Some (sockets st !! h1) →
  rooms st !! roomId = Some room → length (Room.participants room) < 4 →
  let st1 :=
    (join_uninterrupted h1 (Some roomId) userId userName1 userAvatar1 st).1 in
  let st2 :=
    (join_uninterrupted h2 roomId2 userId userName2 userAvatar2 st1).1 in
  let st3 := (on_disconnect h1 st2).1 in
  userSockets st2 !! userId = Some h2 →
  userSockets st1 !! userId = Some h1
  ∧ userSockets st3 !! userId = None
  ∧ (∀ room', rooms st3 !! roomId = Some room' →
              userId ∉ Room.participants room')
  ∧ is_Some (sockets st3 !! h2)
  ∧ (∀ sid now,
       (∀ sdp type, on_offer sid userId sdp type now st3 = (st3, []))
       ∧ (∀ sdp, on_answer sid userId sdp now st3 = (st3, []))
       ∧ (∀ candidate,
            on_ice_candidate sid userId candidate now st3 = (st3, []))).
Proof.
  intros Hst Hsusp Hne [socket Hs] Hroom Hfree st1 st2 st3 Hrebound.
  pose proof (reachable_room_truthy _ _ _ Hst Hroom) as Htruthy.
  pose proof (join_uninterrupted_success h1 roomId userId userName1
                userAvatar1 st socket room Hsusp Hs Hroom Hfree) as Hjoin1.
  assert (userSockets st1 !! userId = Some h1) as Hbound1.
  { subst st1. rewrite Hjoin1. apply lookup_insert_eq. }
  assert (suspended st1 = []) as Hsusp1 by (subst st1; by rewrite Hjoin1).
  destruct (join_uninterrupted_cases h2 roomId2 userId userName2 userAvatar2
              st1 Hsusp1)
    as [Hsame | (r2 & socket2 & room2 & -> & Hs2 & Hroom2 & Hfree2)].
  { fold st2 in Hsame. rewrite Hsame in Hrebound. congruence. }
  pose proof (join_uninterrupted_success h2 r2 userId userName2 userAvatar2
                st1 socket2 room2 Hsusp1 Hs2 Hroom2 Hfree2) as Hjoin2.
  assert (∃ socket1, sockets st2 !! h1 = Some socket1
            ∧ Socket.userId socket1 = userId
            ∧ Socket.roomId socket1 = Some roomId) as (socket1 & Hs1 & Hu1 & Hr1).
  { eexists. split; [|split].
    - subst st2. rewrite Hjoin2. simpl. rewrite lookup_insert_ne by done.
      subst st1. rewrite Hjoin1. simpl. apply lookup_insert_eq.
    - done.
    - done. }
  assert (is_Some (rooms st2 !! roomId)) as [room' Hroom'].
  { subst st2. rewrite Hjoin2. simpl.
    destruct (decide (r2 = roomId)) as [->|Hr].
    - rewrite lookup_insert_eq. eauto.
    - rewrite lookup_insert_ne by done. subst st1. rewrite Hjoin1. simpl.
      rewrite lookup_insert_eq. eauto. }
  destruct (disconnect_unbinds st2 h1 socket1 roomId room'
              Hs1 Hr1 Htruthy Hroom') as (Hunbound & Hout & Hlive).
  rewrite Hu1 in Hunbound, Hout. fold st3 in Hunbound, Hout, Hlive.
  split_and!; try done.
  - rewrite Hlive, lookup_delete_ne by done.
    subst st2. rewrite Hjoin2. simpl. rewrite lookup_insert_eq. eauto.
  - by apply relay_unbound_dropped.
Qed.

Lemma superseded_disconnect_unbinds_witness :
  userSockets
    (on_disconnect sock1
       (join_uninterrupted sock2 (Some room1) (Some "u1") (Some "Alice")
          (Some "🙂")
          (join_uninterrupted sock1 (Some room1) (Some "u1") (Some "Alice")
             (Some "🙂") (run one_member initial)).1).1).1 !! Some "u1" = None
  ∧ is_Some
      (sockets
         (on_disconnect sock1
            (join_uninterrupted sock2 (Some room1) (Some "u1") (Some "Alice")
               (Some "🙂")
               (join_uninterrupted sock1 (Some room1) (Some "u1")
                  (Some "Alice") (Some "🙂") (run one_member initial)).1).1).1
         !! sock2).
Proof.
  destruct (superseded_disconnect_unbinds (run one_member initial) sock1 sock2
    room1 (Room.mk room1 "video" (Some "u1") [Some "u1"] 1000 true 0)
    (Some "u1") (Some "Alice") (Some "🙂") (Some room1) (Some "Alice")
    (Some "🙂") one_member_reachable
    ltac:(vm_compute; reflexivity) ltac:(discriminate) ltac:(vm_compute; eauto)
    ltac:(vm_compute; reflexivity) ltac:(simpl; lia)
    ltac:(vm_compute; reflexivity)) as (_ & Hunbound & _ & Hlive & _).
  split; [exact Hunbound | exact Hlive].
Defined.

(** ** The roster *)

(** C10: in the roster of room-joined, sent when a join is resumed, the
    entries are the participants of the room object after the add, in
    order; the entry whose id is the joiner's carries the joiner's
    userName and userAvatar, every other entry carries the name
    'Participant' and the avatar '👤', and all entries have isOnline
    true. *)
Theorem roster_placeholders st j rest registered room :
  suspended st = j :: rest → held_room j st = Some (registered, room) →
  ∃ type roster isCreator notice,
    (on_join_room_resume st).2
    = [socket_emit (Join.sid j)
         (room_joined (Join.roomId j) type roster isCreator); notice]
    ∧ RosterEntry.id <$> roster
      = set_add (Join.userId j) (Room.participants room)
    ∧ ∀ entry, entry ∈ roster →
        RosterEntry.isOnline entry = true
        ∧ (RosterEntry.id entry = Join.userId j →
           RosterEntry.name entry = Join.userName j
           ∧ RosterEntry.avatar entry = Join.userAvatar j)
        ∧ (RosterEntry.id entry ≠ Join.userId j →
           RosterEntry.name entry = Some "Participant"
           ∧ RosterEntry.avatar entry = Some "👤").
Proof.
  intros Hsusp Hheld. unfold on_join_room_resume. rewrite Hsusp, Hheld.
  cbn [snd]. eexists _, _, _, _. split; [done|]. split; [apply roster_ids|].
  intros entry (pid & -> & _)%list_elem_of_fmap. unfold roster_entry. simpl.
  split_and!; [done| |]; intros Hpid; by case_bool_decide.
Qed.

Lemma roster_placeholders_witness :
  ∃ type isCreator notice,
    (on_join_room_resume
       (on_join_room sock2 (Some room1) (Some "u2") (Some "Bob") (Some "🤖")
          (run one_member initial)).1).2
    = [socket_emit sock2
         (room_joined room1 type
            [RosterEntry.mk (Some "u1") (Some "Participant") (Some "👤") true;
             RosterEntry.mk (Some "u2") (Some "Bob") (Some "🤖") true]
            isCreator); notice].
Proof.
  destruct (roster_placeholders
    (on_join_room sock2 (Some room1) (Some "u2") (Some "Bob") (Some "🤖")
       (run one_member initial)).1
    (Join.mk sock2 room1 (Some "u2") (Some "Bob") (Some "🤖") 0) [] true
    (Room.mk room1 "video" (Some "u1") [Some "u1"] 1000 true 0)
    ltac:(vm_compute; reflexivity) ltac:(vm_compute; reflexivity))
    as (type & roster & isCreator & notice & Hout & _ & _).
  exists type, isCreator, notice. rewrite Hout.
  assert (roster
          = [RosterEntry.mk (Some "u1") (Some "Participant") (Some "👤") true;
             RosterEntry.mk (Some "u2") (Some "Bob") (Some "🤖") true])
    as ->; [|done].
  vm_compute in Hout. by injection Hout as _ ->.
Defined.

(** * Further properties of the handlers *)

(** ** The room id token *)

Lemma split_head_parts sep s :
  (sep ∉ String.list_ascii_of_string (split_head sep s))
  ∧ ∃ rest, s = (split_head sep s ++ rest)
            ∧ (rest = "" ∨ ∃ tail, rest = String sep tail).
Proof.
  induction s as [|c s [IHn (rest & IHs & IHr)]]; simpl.
  - split; [apply not_elem_of_nil|]. exists "". split; [done | by left].
  - destruct (Ascii.eqb c sep) eqn:Hc.
    + apply Ascii.eqb_eq in Hc as ->. simpl.
      split; [apply not_elem_of_nil|]. exists (String sep s).
      split; [done | right; eauto].
    + apply Ascii.eqb_neq in Hc. simpl. split.
      * rewrite not_elem_of_cons. split; [congruence | done].
      * exists rest. split; [exact (f_equal (String c) IHs) | done].
Qed.

(** X1: [split('-')[0]] yields the part of the string before its first
    separator: the result holds no separator, and the string is the
    result followed by nothing or by a remainder that starts with the
    separator. *)
Theorem split_head_spec sep s :
  (sep ∉ String.list_ascii_of_string (split_head sep s))
  ∧ ∃ rest, s = (split_head sep s ++ rest)
            ∧ (rest = "" ∨ ∃ tail, rest = String sep tail).
Proof.
  destruct (split_head_parts sep s) as [Hclean (rest & Hs & Hrest)].
  split; [exact Hclean|]. exists rest. split; [exact Hs | exact Hrest].
Qed.

(** ** What an event can do to a room *)

Lemma with_participants_same room :
  Room.with_participants (Room.participants room) room = room.
Proof. by destruct room. Qed.

Lemma depart_room_change roomId room socket st k room' :
  rooms st !! roomId = Some room →
  rooms (depart roomId room socket st).1 !! k = Some room' →
  rooms st !! k = Some room'
  ∨ (k = roomId
     ∧ room' = Room.with_participants (Room.participants room') room
     ∧ Room.participants room' ≠ []).
Proof.
  intros Hroom. rewrite depart_rooms. case_bool_decide as Hlen.
  - intros [_ Hk]%lookup_delete_Some. by left.
  - intros [[<- <-]|[_ Hk]]%lookup_insert_Some; [|by left].
    right. split_and!; [done..|]. simpl. intros Hnil. by rewrite Hnil in Hlen.
Qed.

Lemma step_room_change ev st k room' :
  rooms (step ev st).1 !! k = Some room' →
  rooms st !! k = Some room'
  ∨ (∃ room, rooms st !! k = Some room
       ∧ room' = Room.with_participants (Room.participants room') room
       ∧ Room.participants room' ≠ [])
  ∨ (∃ userId type uuid now now',
       ev = CreateRoom userId type uuid now now'
       ∧ k = "assma-" ++ split_head "-"%char uuid
       ∧ room' = Room.mk k (default "video" type) userId [] now true (next st)).
Proof.
  destruct ev; cbn [step fst];
    rewrite ?on_offer_state, ?on_answer_state, ?on_ice_candidate_state,
      ?on_user_status_state, ?on_ping_state; try by left.
  - simpl. intros [[<- <-]|[_ Hk]]%lookup_insert_Some.
    + right. right. by eexists _, _, _, _, _.
    + rewrite rooms_unregister in Hk. apply lookup_delete_Some in Hk as [_ Hk].
      by left.
  - unfold on_join_room.
    destruct (sockets st !! sid) as [socket|]; [|by left].
    destruct roomId as [r|]; [|by left]. simpl.
    destruct (rooms st !! r) as [room|]; [|by left].
    case_bool_decide; by left.
  - unfold on_join_room_resume.
    destruct (suspended st) as [|j rest]; [by left|].
    destruct (held_room j st) as [[[] room]|] eqn:Hheld; simpl; try by left.
    apply held_room_registered in Hheld.
    intros [[<- <-]|[_ Hk]]%lookup_insert_Some; [|by left].
    right. left. exists room. split_and!; [done..|]. apply set_add_nonempty.
  - unfold on_leave_room.
    destruct (sockets st !! sid) as [socket|]; [|by left].
    destruct (Socket.roomId socket) as [roomId|]; [|by left].
    destruct (truthy roomId); simpl; [|by left].
    destruct (rooms st !! roomId) as [room|] eqn:Hroom; [|by left].
    simpl. intros Hk.
    destruct (depart_room_change roomId room socket st k room' Hroom Hk)
      as [|(-> & ? & ?)]; [by left|].
    right. left. by exists room.
  - unfold on_disconnect.
    destruct (sockets st !! sid) as [socket|]; [|by left].
    destruct (Socket.roomId socket) as [roomId|]; [|by left].
    destruct (truthy roomId); simpl; [|by left].
    destruct (rooms st !! roomId) as [room|] eqn:Hroom; [|by left].
    simpl. intros Hk.
    destruct (depart_room_change roomId room socket st k room' Hroom Hk)
      as [|(-> & ? & ?)]; [by left|].
    right. left. by exists room.
  - rewrite sweep_lookup. destruct (rooms st !! k) as [room|]; [|done].
    destruct (stale now room); [done | by left].
Qed.

(** X2: in every reachable state a room is stored under its own id,
    the id is 'assma-' followed by eight characters none of which is a
    dash, and the room's isActive flag is true. *)
Theorem rooms_well_formed st roomId room :
  reachable st → rooms st !! roomId = Some room → room_wf roomId room.
Proof.
  intros Hst. revert roomId room.
  induction Hst as [|st ev _ IH Hok]; intros k room' Hk; [done|].
  destruct (step_room_change ev st k room' Hk)
    as [Hsame | [(room & Hroom & -> & _)
                | (userId & type & uuid & now & now' & -> & -> & ->)]].
  - by apply IH.
  - destruct (IH _ _ Hroom) as (Hid & Hact & Htok). by split_and!.
  - simpl in Hok. split_and!; [done..|].
    exists (split_head "-"%char uuid). split_and!; [done..|].
    apply split_head_parts.
Qed.

Lemma rooms_well_formed_witness :
  room_wf room1
    (Room.mk room1 "video" (Some "u1")
       [Some "u1"; Some "u2"; Some "u3"; Some "u4"] 1000 true 0).
Proof.
  apply (rooms_well_formed (run four_members initial));
    [exact four_members_reachable | vm_compute; reflexivity].
Defined.

(** X3: no event changes the id, type, creator, creation time or
    isActive flag of a room that stays in the registry; the one
    exception is a create-room that draws the id of an existing room
    and replaces it. *)
Theorem room_fields_fixed ev st k room room' :
  rooms st !! k = Some room → rooms (step ev st).1 !! k = Some room' →
  (Room.id room' = Room.id room ∧ Room.type room' = Room.type room
   ∧ Room.creator room' = Room.creator room
   ∧ Room.createdAt room' = Room.createdAt room
   ∧ Room.isActive room' = Room.isActive room)
  ∨ ∃ userId type uuid now now',
      ev = CreateRoom userId type uuid now now'
      ∧ k = "assma-" ++ split_head "-"%char uuid.
Proof.
  intros Hroom Hk.
  destruct (step_room_change ev st k room' Hk)
    as [Hsame | [(room0 & Hroom0 & -> & _)
                | (userId & type & uuid & now & now' & -> & -> & _)]].
  - left. assert (room' = room) as -> by congruence. done.
  - left. assert (room0 = room) as -> by congruence. done.
  - right. by eexists _, _, _, _, _.
Qed.

Lemma room_fields_fixed_witness :
  Room.creator
    (Room.mk room1 "video" (Some "u1") [Some "u1"; Some "u2"] 1000 true 0)
  = Room.creator (Room.mk room1 "video" (Some "u1") [Some "u1"] 1000 true 0)
  ∧ rooms (step ResumeJoin
             (step (JoinRoom sock2 (Some room1) (Some "u2") (Some "Bob")
                      (Some "🤖"))
                (run one_member initial)).1).1 !! room1
    = Some (Room.mk room1 "video" (Some "u1") [Some "u1"; Some "u2"] 1000
              true 0).
Proof.
  assert (rooms (step ResumeJoin
                   (step (JoinRoom sock2 (Some room1) (Some "u2") (Some "Bob")
                            (Some "🤖"))
                      (run one_member initial)).1).1 !! room1
          = Some (Room.mk room1 "video" (Some "u1") [Some "u1"; Some "u2"]
                    1000 true 0))
    as Hafter by (vm_compute; reflexivity).
  split; [|exact Hafter].
  destruct (room_fields_fixed ResumeJoin
              (step (JoinRoom sock2 (Some room1) (Some "u2") (Some "Bob")
                       (Some "🤖"))
                 (run one_member initial)).1 room1
              (Room.mk room1 "video" (Some "u1") [Some "u1"] 1000 true 0) _
              ltac:(vm_compute; reflexivity) Hafter)
    as [(_ & _ & Hcreator & _) | (? & ? & ? & ? & ? & Hev & _)];
    [exact Hcreator | discriminate Hev].
Defined.

(** X4: join, leave and disconnect never leave a room empty in the
    registry: a room that is empty after an event was there, identical,
    before the event, or the event is the create-room that made it. *)
Theorem no_room_left_empty ev st k room' :
  rooms (step ev st).1 !! k = Some room' → Room.participants room' = [] →
  rooms st !! k = Some room'
  ∨ ∃ userId type uuid now now',
      ev = CreateRoom userId type uuid now now'
      ∧ k = "assma-" ++ split_head "-"%char uuid.
Proof.
  intros Hk Hempty.
  destruct (step_room_change ev st k room' Hk)
    as [Hsame | [(room0 & _ & _ & Hne)
                | (userId & type & uuid & now & now' & -> & -> & _)]].
  - by left.
  - done.
  - right. by eexists _, _, _, _, _.
Qed.

Lemma no_room_left_empty_witness :
  rooms (run mixed_rooms initial) !! room3
  = Some (Room.mk room3 "audio" (Some "u9") [] 1000 true 1).
Proof.
  destruct (no_room_left_empty (LeaveRoom sock1) (run mixed_rooms initial)
              room3 (Room.mk room3 "audio" (Some "u9") [] 1000 true 1)
              ltac:(vm_compute; reflexivity) ltac:(reflexivity))
    as [Hbefore | (? & ? & ? & ? & ? & Hev & _)];
    [exact Hbefore | discriminate Hev].
Defined.

(** ** Notifications of departures and of status *)

(** X5: a leave-room from a connection whose room is in the registry
    sends one user-left, carrying the user id and user name stored on
    the connection and the number of participants after the removal.
    It reaches exactly the other live connections subscribed to the
    room's channel, never the leaver.  Afterwards the connection's user
    id is unbound, the connection carries no room id and is
    unsubscribed. *)
Theorem leave_notifies_others st sid socket roomId room :
  reachable st → sockets st !! sid = Some socket →
  Socket.roomId socket = Some roomId → rooms st !! roomId = Some room →
  ∃ socket',
    (on_leave_room sid st).2
    = [socket_to sid roomId
         (user_left (Socket.userId socket) (Socket.userName socket)
            (length (set_delete (Socket.userId socket)
                       (Room.participants room))))]
    ∧ (∀ m x, x ∈ recipients st (socket_to sid roomId m)
              ↔ x ≠ sid
                ∧ ∃ s, sockets st !! x = Some s ∧ roomId ∈ Socket.joined s)
    ∧ userSockets (on_leave_room sid st).1 !! Socket.userId socket = None
    ∧ sockets (on_leave_room sid st).1 !! sid = Some socket'
    ∧ Socket.roomId socket' = None
    ∧ roomId ∉ Socket.joined socket'.
Proof.
  intros Hst Hs Hrid Hroom.
  pose proof (reachable_roomId_truthy _ _ _ _ Hst Hs Hrid) as Htruthy.
  assert (∀ m x, x ∈ recipients st (socket_to sid roomId m)
                 ↔ x ≠ sid
                   ∧ ∃ s, sockets st !! x = Some s
                          ∧ roomId ∈ Socket.joined s) as Hrec.
  { intros m x. rewrite elem_of_recipients_to. split.
    - intros (s & Hx & Hsub & Hne). split; [done|]. exists s. split; [done|].
      by apply (joined_channel st sid socket roomId x s).
    - intros (Hne & s & Hx & Hin). exists s. split_and!; [done| |done].
      by apply (joined_channel st sid socket roomId x s). }
  eexists. unfold on_leave_room. rewrite Hs, Hrid, Htruthy, Hroom.
  cbn [negb fst snd userSockets sockets].
  destruct (depart_rest roomId room socket st) as [-> ->].
  split_and!; [done|exact Hrec|apply lookup_delete_eq|apply lookup_insert_eq
               |done|].
  simpl. apply not_elem_of_set_delete.
Qed.

Lemma leave_notifies_others_witness :
  (on_leave_room sock2 (run two_members initial)).2
  = [socket_to sock2 room1 (user_left (Some "u2") (Some "Bob") 1)]
  ∧ sock1 ∈ recipients (run two_members initial)
      (socket_to sock2 room1 (user_left (Some "u2") (Some "Bob") 1)).
Proof.
  destruct (leave_notifies_others (run two_members initial) sock2
    (Socket.mk (Some "u2") (Some "Bob") (Some "🤖") (Some room1) [room1])
    room1
    (Room.mk room1 "video" (Some "u1") [Some "u1"; Some "u2"] 1000 true 0)
    two_members_reachable ltac:(vm_compute; reflexivity) ltac:(reflexivity)
    ltac:(vm_compute; reflexivity))
    as (socket' & Hout & Hrec & _).
  split; [exact Hout|].
  apply Hrec. split; [discriminate|].
  exists (Socket.mk (Some "u1") (Some "Alice") (Some "🙂") (Some room1) [room1]).
  split; [vm_compute; reflexivity | by left].
Defined.

(** X6: when a connection whose room is in the registry is lost, one
    user-disconnected with reason 'disconnected' carries the user id
    and user name stored on the connection; it reaches exactly the
    connections that remain live and are subscribed to the room's
    channel; the lost connection is removed and every other connection
    is kept as it was. *)
Theorem disconnect_notifies_room st sid socket roomId room :
  reachable st → sockets st !! sid = Some socket →
  Socket.roomId socket = Some roomId → rooms st !! roomId = Some room →
  (on_disconnect sid st).2
  = [io_to roomId
       (user_disconnected (Socket.userId socket) (Socket.userName socket)
          "disconnected")]
  ∧ (∀ m x, x ∈ recipients (on_disconnect sid st).1 (io_to roomId m)
            ↔ x ≠ sid
              ∧ ∃ s, sockets st !! x = Some s ∧ roomId ∈ Socket.joined s)
  ∧ sockets (on_disconnect sid st).1 = delete sid (sockets st).
Proof.
  intros Hst Hs Hrid Hroom.
  pose proof (reachable_roomId_truthy _ _ _ _ Hst Hs Hrid) as Htruthy.
  destruct (disconnect_unbinds st sid socket roomId room
              Hs Hrid Htruthy Hroom) as (_ & _ & Hlive).
  split_and!; [| |done].
  - unfold on_disconnect. by rewrite Hs, Hrid, Htruthy, Hroom.
  - intros m x. rewrite elem_of_recipients_io, Hlive. split.
    + intros (s & [Hne Hx]%lookup_delete_Some & Hsub). split; [done|].
      exists s. split; [done|].
      by apply (joined_channel st sid socket roomId x s).
    + intros (Hne & s & Hx & Hin). exists s. split.
      * apply lookup_delete_Some. done.
      * by apply (joined_channel st sid socket roomId x s).
Qed.

Lemma disconnect_notifies_room_witness :
  (on_disconnect sock1 (run two_members initial)).2
  = [io_to room1 (user_disconnected (Some "u1") (Some "Alice") "disconnected")]
  ∧ sockets (on_disconnect sock1 (run two_members initial)).1 !! sock1 = None.
Proof.
  destruct (disconnect_notifies_room (run two_members initial) sock1
    (Socket.mk (Some "u1") (Some "Alice") (Some "🙂") (Some room1) [room1])
    room1
    (Room.mk room1 "video" (Some "u1") [Some "u1"; Some "u2"] 1000 true 0)
    two_members_reachable ltac:(vm_compute; reflexivity) ltac:(reflexivity)
    ltac:(vm_compute; reflexivity))
    as (Hout & _ & Hlive).
  split; [exact Hout|].
  rewrite Hlive. apply lookup_delete_eq.
Defined.

(** X7: a user-status message changes no state.  From a connection
    that carries a room id it is re-sent as user-status-changed, with
    the flags as received, to exactly the other live connections
    subscribed to that room's channel and never back to the sender;
    from a connection without a room id nothing is sent. *)
Theorem user_status_broadcast st sid socket isMuted isVideoOn now :
  reachable st → sockets st !! sid = Some socket →
  (on_user_status sid isMuted isVideoOn now st).1 = st
  ∧ match Socket.roomId socket with
    | Some roomId =>
        (on_user_status sid isMuted isVideoOn now st).2
        = [socket_to sid roomId
             (user_status_changed (Socket.userId socket) isMuted isVideoOn
                now)]
        ∧ ∀ m x, x ∈ recipients st (socket_to sid roomId m)
                 ↔ x ≠ sid
                   ∧ ∃ s, sockets st !! x = Some s
                          ∧ roomId ∈ Socket.joined s
    | None => (on_user_status sid isMuted isVideoOn now st).2 = []
    end.
Proof.
  intros Hst Hs. split; [apply on_user_status_state|].
  unfold on_user_status. rewrite Hs.
  destruct (Socket.roomId socket) as [roomId|] eqn:Hrid; [|done].
  split; [done|]. intros m x. rewrite elem_of_recipients_to. split.
  - intros (s & Hx & Hsub & Hne). split; [done|]. exists s. split; [done|].
    by apply (joined_channel st sid socket roomId x s).
  - intros (Hne & s & Hx & Hin). exists s. split_and!; [done| |done].
    by apply (joined_channel st sid socket roomId x s).
Qed.

Lemma user_status_broadcast_witness :
  (on_user_status sock1 (Some true) (Some false) 7000
     (run two_members initial)).2
  = [socket_to sock1 room1
       (user_status_changed (Some "u1") (Some true) (Some false) 7000)]
  ∧ sock2 ∈ recipients (run two_members initial)
      (socket_to sock1 room1
         (user_status_changed (Some "u1") (Some true) (Some false) 7000))
  ∧ (on_user_status sock2 (Some true) (Some false) 7000
       (run one_member initial)).2 = [].
Proof.
  destruct (user_status_broadcast (run two_members initial) sock1
    (Socket.mk (Some "u1") (Some "Alice") (Some "🙂") (Some room1) [room1])
    (Some true) (Some false) 7000 two_members_reachable
    ltac:(vm_compute; reflexivity))
    as (_ & Hout & Hrec).
  destruct (user_status_broadcast (run one_member initial) sock2 Socket.fresh
    (Some true) (Some false) 7000 one_member_reachable
    ltac:(vm_compute; reflexivity))
    as (_ & Hnone).
  split_and!; [exact Hout | | exact Hnone].
  apply Hrec. split; [discriminate|].
  exists (Socket.mk (Some "u2") (Some "Bob") (Some "🤖") (Some room1) [room1]).
  split; [vm_compute; reflexivity | by left].
Defined.

(** ** Leaving, then losing the connection *)

(** X8: after a leave-room on a connection, the loss of that connection
    sends nothing and changes neither the registry nor the bindings,
    whatever the leave-room did. *)
Theorem leave_then_disconnect_quiet st sid :
  (on_disconnect sid (on_leave_room sid st).1).2 = []
  ∧ rooms (on_disconnect sid (on_leave_room sid st).1).1
    = rooms (on_leave_room sid st).1
  ∧ userSockets (on_disconnect sid (on_leave_room sid st).1).1
    = userSockets (on_leave_room sid st).1.
Proof.
  destruct (sockets st !! sid) as [socket|] eqn:Hs;
    [|by unfold on_leave_room; rewrite Hs; unfold on_disconnect; simpl;
         rewrite Hs].
  destruct (Socket.roomId socket) as [roomId|] eqn:Hrid;
    [|by unfold on_leave_room; rewrite Hs, Hrid; unfold on_disconnect; simpl;
         rewrite Hs, Hrid].
  destruct (truthy roomId) eqn:Htruthy;
    [|by unfold on_leave_room; rewrite Hs, Hrid, Htruthy;
         unfold on_disconnect; simpl; rewrite Hs, Hrid, Htruthy].
  unfold on_leave_room. rewrite Hs, Hrid, Htruthy. simpl.
  destruct (rooms st !! roomId) as [room|];
    unfold on_disconnect; simpl; by rewrite lookup_insert_eq.
Qed.

(** ** Joining and leaving *)

(** X9: a connection joins a room under a user id that is not yet a
    participant, the join runs to its end, and then the connection
    leaves.  If the room had participants, the registry is back as it
    was; if the room was empty, the room is gone.  The user id is
    unbound in either case, whatever it was bound to before. *)
Theorem join_leave_round_trip st sid socket roomId room userId userName userAvatar :
  reachable st → suspended st = [] → sockets st !! sid = Some socket →
  rooms st !! roomId = Some room → length (Room.participants room) < 4 →
  userId ∉ Room.participants room →
  rooms (on_leave_room sid
           (join_uninterrupted sid (Some roomId) userId userName userAvatar
              st).1).1
  = (if bool_decide (Room.participants room = []) then delete roomId (rooms st)
     else rooms st)
  ∧ userSockets
      (on_leave_room sid
         (join_uninterrupted sid (Some roomId) userId userName userAvatar
            st).1).1
    = delete userId (userSockets st).
Proof.
  intros Hst Hsusp Hs Hroom Hfree Hnew.
  pose proof (reachable_room_truthy _ _ _ Hst Hroom) as Htruthy.
  rewrite (join_uninterrupted_success _ _ _ _ _ _ _ _ Hsusp Hs Hroom Hfree).
  unfold on_leave_room. cbn [fst sockets rooms].
  rewrite lookup_insert_eq. cbn [Socket.roomId]. rewrite Htruthy.
  cbn [negb]. rewrite lookup_insert_eq. cbn [fst rooms userSockets].
  rewrite depart_rooms.
  match goal with
  | |- context [depart ?r ?o ?s ?t] =>
      destruct (depart_rest r o s t) as [-> _]
  end.
  cbn [Socket.userId Room.participants Room.with_participants rooms
         userSockets].
  rewrite set_delete_add by done. split; [|apply delete_insert_eq].
  destruct (Room.participants room) as [|p ps] eqn:Hps; simpl.
  - apply delete_insert_eq.
  - rewrite insert_insert_eq. apply insert_id. rewrite Hroom. f_equal.
    destruct room. simpl in *. by subst.
Qed.

Lemma join_leave_round_trip_witness :
  rooms (on_leave_room sock2
           (join_uninterrupted sock2 (Some room1) (Some "u2") (Some "Bob")
              (Some "🤖") (run one_member initial)).1).1
  = rooms (run one_member initial).
Proof.
  destruct (join_leave_round_trip (run one_member initial) sock2 Socket.fresh
    room1 (Room.mk room1 "video" (Some "u1") [Some "u1"] 1000 true 0)
    (Some "u2") (Some "Bob") (Some "🤖") one_member_reachable
    ltac:(vm_compute; reflexivity) ltac:(vm_compute; reflexivity)
    ltac:(vm_compute; reflexivity) ltac:(simpl; lia)
    ltac:(apply (bool_decide_eq_false_1 _); vm_compute; reflexivity))
    as [Hrooms _].
  exact Hrooms.
Defined.

(** X10: when a participant of a room that holds four leaves through
    its connection, the room holds three, and a join-room for it from
    any live connection, run to its end, is admitted: the joiner is
    bound and is a participant afterwards. *)
Theorem leave_frees_seat st sid socket roomId room :
  reachable st → suspended st = [] → sockets st !! sid = Some socket →
  Socket.roomId socket = Some roomId →
  rooms st !! roomId = Some room →
  Socket.userId socket ∈ Room.participants room →
  length (Room.participants room) = 4 →
  ∃ room',
    rooms (on_leave_room sid st).1 !! roomId = Some room'
    ∧ length (Room.participants room') = 3
    ∧ ∀ sid2 socket2 userId2 userName2 userAvatar2,
        sockets (on_leave_room sid st).1 !! sid2 = Some socket2 →
        userSockets
          (join_uninterrupted sid2 (Some roomId) userId2 userName2
             userAvatar2 (on_leave_room sid st).1).1 !! userId2 = Some sid2
        ∧ ∃ room'',
            rooms
              (join_uninterrupted sid2 (Some roomId) userId2 userName2
                 userAvatar2 (on_leave_room sid st).1).1 !! roomId
            = Some room''
            ∧ userId2 ∈ Room.participants room''.
Proof.
  intros Hst Hsusp Hs Hrid Hroom Hin Hfull.
  pose proof (reachable_room_truthy _ _ _ Hst Hroom) as Htruthy.
  destruct (reachable_invariant st Hst) as [Hr _ _ _].
  destruct (Hr _ _ Hroom) as [_ Hnd].
  pose proof (set_delete_member_length _ _ Hnd Hin) as Hlen.
  assert (rooms (on_leave_room sid st).1 !! roomId
          = Some (Room.with_participants
                    (set_delete (Socket.userId socket)
                       (Room.participants room)) room)
          ∧ suspended (on_leave_room sid st).1 = []) as [Hroom' Hsusp'].
  { unfold on_leave_room. rewrite Hs, Hrid, Htruthy, Hroom.
    cbn [negb fst rooms suspended]. rewrite depart_rooms.
    rewrite bool_decide_eq_false_2 by lia. split; [apply lookup_insert_eq|done]. }
  eexists. split; [exact Hroom'|]. split; [simpl; lia|].
  intros sid2 socket2 userId2 userName2 userAvatar2 Hs2.
  rewrite (join_uninterrupted_success _ _ _ _ _ _ _ _ Hsusp' Hs2 Hroom')
    by (simpl; lia).
  cbn [fst rooms userSockets]. rewrite !lookup_insert_eq.
  split; [done|]. eexists. split; [done|]. simpl.
  apply elem_of_set_add. by left.
Qed.

Lemma leave_frees_seat_witness :
  userSockets
    (join_uninterrupted sock5 (Some room1) (Some "u5") (Some "Eve") (Some "e")
       (on_leave_room sock2 (run four_members initial)).1).1 !! Some "u5"
  = Some sock5.
Proof.
  destruct (leave_frees_seat (run four_members initial) sock2
    (Socket.mk (Some "u2") (Some "Bob") (Some "🤖") (Some room1) [room1])
    room1
    (Room.mk room1 "video" (Some "u1")
       [Some "u1"; Some "u2"; Some "u3"; Some "u4"] 1000 true 0)
    four_members_reachable ltac:(vm_compute; reflexivity)
    ltac:(vm_compute; reflexivity)
    ltac:(reflexivity) ltac:(vm_compute; reflexivity)
    ltac:(apply (bool_decide_eq_true_1 _); vm_compute; reflexivity)
    ltac:(reflexivity)) as (room' & _ & _ & Hjoin).
  apply (Hjoin sock5 Socket.fresh (Some "u5") (Some "Eve") (Some "e")).
  vm_compute. reflexivity.
Defined.

(** X11: a room can be joined as soon as it is created.  The first
    joiner (its join run to the end) gets a room-joined with the id and
    type create-room answered with, a roster holding only its own
    entry, and isCreator true exactly when its user id is the one that
    created the room; the user-joined count is 1. *)
Theorem created_room_joinable st sid socket creator type uuid now now'
    userId userName userAvatar :
  suspended st = [] → sockets st !! sid = Some socket →
  (join_uninterrupted sid
     (Some (resp_roomId (create_room creator type uuid now now' st).2))
     userId userName userAvatar
     (create_room creator type uuid now now' st).1).2
  = [socket_emit sid
       (room_joined
          (resp_roomId (create_room creator type uuid now now' st).2)
          (resp_type (create_room creator type uuid now now' st).2)
          [RosterEntry.mk userId userName userAvatar true]
          (bool_decide (creator = userId)));
     socket_to sid
       (resp_roomId (create_room creator type uuid now now' st).2)
       (user_joined userId userName userAvatar 1)].
Proof.
  intros Hsusp Hs. unfold create_room. cbn [fst snd resp_roomId resp_type].
  erewrite join_uninterrupted_success;
    [|exact Hsusp|exact Hs|apply lookup_insert_eq|simpl; lia].
  cbn [snd Room.participants Room.type Room.creator].
  unfold set_add. rewrite bool_decide_eq_false_2 by apply not_elem_of_nil.
  simpl. unfold roster_entry.
  by rewrite !(bool_decide_eq_true_2 (userId = userId)) by done.
Qed.

Lemma created_room_joinable_witness :
  (join_uninterrupted sock2 (Some room3) (Some "u9") (Some "Ines") (Some "i")
     (create_room (Some "u9") (Some "audio") uuid3 3000 3001
        (run one_member initial)).1).2
  = [socket_emit sock2
       (room_joined room3 "audio"
          [RosterEntry.mk (Some "u9") (Some "Ines") (Some "i") true] true);
     socket_to sock2 room3 (user_joined (Some "u9") (Some "Ines") (Some "i") 1)].
Proof.
  apply (created_room_joinable (run one_member initial) sock2 Socket.fresh
           (Some "u9") (Some "audio") uuid3 3000 3001 (Some "u9")
           (Some "Ines") (Some "i")); vm_compute; reflexivity.
Defined.

(** X12: a join-room, run to its end, under a user id that already is a
    participant of the room (and the room holds fewer than four) leaves
    the registry as it is: the participant set does not grow, the
    user-joined count is the old size, and the user id is now bound to
    the joining connection. *)
Theorem rejoin_no_growth st sid socket roomId room userId userName userAvatar :
  suspended st = [] → sockets st !! sid = Some socket →
  rooms st !! roomId = Some room →
  length (Room.participants room) < 4 → userId ∈ Room.participants room →
  rooms (join_uninterrupted sid (Some roomId) userId userName userAvatar st).1
  = rooms st
  ∧ userSockets
      (join_uninterrupted sid (Some roomId) userId userName userAvatar st).1
      !! userId = Some sid
  ∧ ∃ type roster isCreator,
      (join_uninterrupted sid (Some roomId) userId userName userAvatar st).2
      = [socket_emit sid (room_joined roomId type roster isCreator);
         socket_to sid roomId
           (user_joined userId userName userAvatar
              (length (Room.participants room)))]
      ∧ RosterEntry.id <$> roster = Room.participants room.
Proof.
  intros Hsusp Hs Hroom Hfree Hin.
  rewrite (join_uninterrupted_success _ _ _ _ _ _ _ _ Hsusp Hs Hroom Hfree).
  rewrite (set_add_member _ _ Hin). cbn [fst snd rooms userSockets].
  split_and!.
  - apply insert_id. by rewrite with_participants_same.
  - apply lookup_insert_eq.
  - eexists _, _, _. split; [done | apply roster_ids].
Qed.

Lemma rejoin_no_growth_witness :
  rooms (join_uninterrupted sock2 (Some room1) (Some "u1") (Some "Alice")
           (Some "🙂") (run one_member initial)).1
  = rooms (run one_member initial)
  ∧ userSockets
      (join_uninterrupted sock2 (Some room1) (Some "u1") (Some "Alice")
         (Some "🙂") (run one_member initial)).1 !! Some "u1"
    = Some sock2.
Proof.
  destruct (rejoin_no_growth (run one_member initial) sock2 Socket.fresh
    room1 (Room.mk room1 "video" (Some "u1") [Some "u1"] 1000 true 0)
    (Some "u1") (Some "Alice") (Some "🙂") ltac:(vm_compute; reflexivity)
    ltac:(vm_compute; reflexivity)
    ltac:(vm_compute; reflexivity) ltac:(simpl; lia)
    ltac:(apply (bool_decide_eq_true_1 _); vm_compute; reflexivity))
    as (Hrooms & Hbound & _).
  split; [exact Hrooms | exact Hbound].
Defined.

(** ** Departures when the room is gone *)

(** X13: when the room a connection carries the id of is no longer in
    the registry, its leave-room and its disconnect send nothing and
    leave the registry and the bindings as they are; in particular the
    binding of the connection's user id stays.  The leave-room still
    clears the connection's room id. *)
Theorem departure_with_room_gone st sid socket roomId :
  reachable st → sockets st !! sid = Some socket →
  Socket.roomId socket = Some roomId → rooms st !! roomId = None →
  ((on_leave_room sid st).2 = []
   ∧ rooms (on_leave_room sid st).1 = rooms st
   ∧ userSockets (on_leave_room sid st).1 = userSockets st
   ∧ Socket.roomId <$> sockets (on_leave_room sid st).1 !! sid = Some None)
  ∧ ((on_disconnect sid st).2 = []
     ∧ rooms (on_disconnect sid st).1 = rooms st
     ∧ userSockets (on_disconnect sid st).1 = userSockets st).
Proof.
  intros Hst Hs Hrid Hgone.
  pose proof (reachable_roomId_truthy _ _ _ _ Hst Hs Hrid) as Htruthy.
  unfold on_leave_room, on_disconnect. rewrite Hs, Hrid, Htruthy, Hgone.
  simpl. split_and!; try done. by rewrite lookup_insert_eq.
Qed.

Lemma departure_with_room_gone_witness :
  userSockets (run room_gone initial) !! Some "u1" = Some sock2
  ∧ (on_leave_room sock1 (run room_gone initial)).2 = []
  ∧ userSockets (on_leave_room sock1 (run room_gone initial)).1 !! Some "u1"
    = Some sock2
  ∧ userSockets (on_disconnect sock1 (run room_gone initial)).1 !! Some "u1"
    = Some sock2.
Proof.
  destruct (departure_with_room_gone (run room_gone initial) sock1
    (Socket.mk (Some "u1") (Some "Alice") (Some "🙂") (Some room1) [room1])
    room1 room_gone_reachable ltac:(vm_compute; reflexivity)
    ltac:(reflexivity) ltac:(vm_compute; reflexivity))
    as ((Hout & _ & Hleave & _) & (_ & _ & Hdisc)).
  assert (userSockets (run room_gone initial) !! Some "u1" = Some sock2)
    as Hbound by (vm_compute; reflexivity).
  split_and!; [exact Hbound | exact Hout | by rewrite Hleave | by rewrite Hdisc].
Defined.

(** ** More on the sweep *)

Lemma stale_mono now1 now2 room :
  (now1 ≤ now2)%Z → stale now1 room = true → stale now2 room = true.
Proof.
  unfold stale. rewrite !andb_true_iff, !bool_decide_eq_true.
  intros Hle [Hold Hempty]. split; [lia | done].
Qed.

(** X14: a sweep makes an earlier sweep redundant: sweeping at [now1]
    and then at a later or equal [now2] gives the registry, bindings,
    sockets and suspended joins that sweeping at [now2] alone gives.
    With [now1 = now2]: sweeping twice is sweeping once. *)
Theorem sweep_later_absorbs now1 now2 st :
  (now1 ≤ now2)%Z →
  rooms (sweep now2 (sweep now1 st)) = rooms (sweep now2 st)
  ∧ userSockets (sweep now2 (sweep now1 st)) = userSockets (sweep now2 st)
  ∧ sockets (sweep now2 (sweep now1 st)) = sockets (sweep now2 st)
  ∧ suspended (sweep now2 (sweep now1 st)) = suspended (sweep now2 st).
Proof.
  intros Hle.
  destruct (sweep_rest now1 st) as (_ & Hu1 & Hs1 & Hj1).
  destruct (sweep_rest now2 st) as (_ & Hu2 & Hs2 & Hj2).
  destruct (sweep_rest now2 (sweep now1 st)) as (_ & Hu & Hs & Hj).
  split_and!; [|congruence..].
  apply map_eq. intros k. rewrite !sweep_lookup.
  destruct (rooms st !! k) as [room|]; [|done].
  destruct (stale now1 room) eqn:H1; [|done].
  by rewrite (stale_mono now1 now2 room Hle H1).
Qed.

Lemma sweep_later_absorbs_witness :
  rooms (sweep 10000000 (sweep 10000000 (run mixed_rooms initial)))
  = rooms (sweep 10000000 (run mixed_rooms initial)).
Proof. apply sweep_later_absorbs. lia. Defined.

Lemma sweep_counting_total now l acc :
  NoDup l.*1 → (∀ k room, (k, room) ∈ l → rooms acc.1 !! k = Some room) →
  (foldl (sweep_step now) acc l).2 + size (rooms (foldl (sweep_step now) acc l).1)
  = acc.2 + size (rooms acc.1).
Proof.
  revert acc. induction l as [|[k room] l IH]; intros acc Hnd Hall.
  - simpl. lia.
  - apply NoDup_cons in Hnd as [Hk Hnd]. simpl.
    assert (rooms acc.1 !! k = Some room) as Hlook by (apply Hall; left).
    unfold sweep_step at 2 4. simpl. destruct (stale now room).
    + rewrite IH; [|done|].
      * simpl. rewrite rooms_unregister.
        rewrite <- (insert_delete_id (rooms acc.1) k room Hlook) at 2.
        rewrite map_size_insert_None by apply lookup_delete_eq. lia.
      * intros k' room' Hin. simpl. rewrite rooms_unregister, lookup_delete_ne.
        -- apply Hall. by right.
        -- intros ->. apply Hk. apply list_elem_of_fmap. by exists (k', room').
    + apply IH; [done|]. intros k' room' Hin. apply Hall. by right.
Qed.

(** X15: the sweep's counter: the number the loop reports is the number
    of rooms the sweep removed from the registry. *)
Theorem sweep_counting_counts now st :
  (sweep_counting now st).2 + size (rooms (sweep now st)) = size (rooms st).
Proof.
  unfold sweep, sweep_counting.
  rewrite (sweep_counting_total now _ (st, 0)); [done| |].
  - apply NoDup_fst_map_to_list.
  - intros k room. apply elem_of_map_to_list.
Qed.

(** ** Full rooms, and joins that overlap *)

(** X16: a join-room, from a live connection, for a room that holds
    four or more participants sends the requester the room-error 'Salle
    pleine' and changes nothing; no join is suspended. *)
Theorem join_full_room_refused st sid socket roomId room userId userName userAvatar :
  sockets st !! sid = Some socket → rooms st !! roomId = Some room →
  4 ≤ length (Room.participants room) →
  on_join_room sid (Some roomId) userId userName userAvatar st
  = (st, [socket_emit sid (room_error "Salle pleine")]).
Proof.
  intros Hs Hr Hfull. unfold on_join_room. rewrite Hs. simpl. rewrite Hr.
  by rewrite bool_decide_eq_true_2.
Qed.

Lemma join_full_room_refused_witness :
  on_join_room sock5 (Some room1) (Some "u5") (Some "Eve") (Some "e")
    (run four_members initial)
  = (run four_members initial,
     [socket_emit sock5 (room_error "Salle pleine")]).
Proof.
  eapply (join_full_room_refused (run four_members initial) sock5
            Socket.fresh room1);
    [vm_compute; reflexivity | vm_compute; reflexivity | simpl; lia].
Defined.

(** X17: a leave-room that arrives together with, and behind, the
    join-room of a connection that is in no room runs while the join
    is suspended: it finds no room id on the connection and does
    nothing, and the join then completes exactly as if no leave-room
    had been sent. *)
Theorem leave_behind_join_is_lost st sid socket roomId room userId userName userAvatar :
  suspended st = [] → sockets st !! sid = Some socket →
  Socket.roomId socket = None → rooms st !! roomId = Some room →
  length (Room.participants room) < 4 →
  on_leave_room sid
    (on_join_room sid (Some roomId) userId userName userAvatar st).1
  = ((on_join_room sid (Some roomId) userId userName userAvatar st).1, [])
  ∧ on_join_room_resume
      (on_leave_room sid
         (on_join_room sid (Some roomId) userId userName userAvatar st).1).1
    = join_uninterrupted sid (Some roomId) userId userName userAvatar st.
Proof.
  intros Hsusp Hs Hrid Hroom Hfree.
  assert (on_leave_room sid
            (on_join_room sid (Some roomId) userId userName userAvatar st).1
          = ((on_join_room sid (Some roomId) userId userName userAvatar st).1,
             [])) as Hleave.
  { rewrite (on_join_room_success _ _ _ _ _ _ _ _ Hs Hroom Hfree).
    unfold on_leave_room. cbn [fst sockets]. rewrite lookup_insert_eq.
    cbn [Socket.roomId]. by rewrite Hrid. }
  split; [exact Hleave|]. rewrite Hleave. cbn [fst].
  unfold join_uninterrupted.
  rewrite (on_join_room_success _ _ _ _ _ _ _ _ Hs Hroom Hfree). cbn [fst snd].
  by destruct (on_join_room_resume _).
Qed.

Lemma leave_behind_join_is_lost_witness :
  Room.participants
    <$> rooms
          (on_join_room_resume
             (on_leave_room sock2
                (on_join_room sock2 (Some room1) (Some "u2") (Some "Bob")
                   (Some "🤖") (run one_member initial)).1).1).1 !! room1
  = Some [Some "u1"; Some "u2"].
Proof.
  destruct (leave_behind_join_is_lost (run one_member initial) sock2
    Socket.fresh room1
    (Room.mk room1 "video" (Some "u1") [Some "u1"] 1000 true 0)
    (Some "u2") (Some "Bob") (Some "🤖") ltac:(vm_compute; reflexivity)
    ltac:(vm_compute; reflexivity) ltac:(reflexivity)
    ltac:(vm_compute; reflexivity) ltac:(simpl; lia)) as [_ ->].
  vm_compute. reflexivity.
Defined.

(** ** Runs without overlapping listeners keep the capacity *)

Lemma step_suspended ev st :
  runs_to_end ev → suspended (step ev st).1 = suspended st.
Proof.
  destruct ev; cbn [step fst runs_to_end]; try done; intros _;
    rewrite ?on_offer_state, ?on_answer_state, ?on_ice_candidate_state,
      ?on_user_status_state, ?on_ping_state; try done.
  - unfold on_leave_room. by repeat case_match.
  - unfold on_disconnect. by repeat case_match.
  - apply sweep_rest.
Qed.

Lemma depart_capacity roomId room socket st :
  within_capacity st → rooms st !! roomId = Some room →
  ∀ k room', rooms (depart roomId room socket st).1 !! k = Some room' →
    length (Room.participants room') ≤ 4.
Proof.
  intros Hcap Hroom k room'. rewrite depart_rooms. case_bool_decide.
  - intros [_ Hk]%lookup_delete_Some. by apply (Hcap k).
  - intros [[<- <-]|[_ Hk]]%lookup_insert_Some; [|by apply (Hcap k)].
    simpl. specialize (Hcap _ _ Hroom).
    pose proof (set_delete_length (Socket.userId socket)
                  (Room.participants room)). lia.
Qed.

Lemma step_capacity ev st :
  runs_to_end ev → within_capacity st → within_capacity (step ev st).1.
Proof.
  intros Hev Hcap k room'. destruct ev; cbn [step fst runs_to_end] in *;
    try done;
    rewrite ?on_offer_state, ?on_answer_state, ?on_ice_candidate_state,
      ?on_user_status_state, ?on_ping_state; try apply Hcap.
  - simpl. intros [[<- <-]|[_ Hk]]%lookup_insert_Some; [simpl; lia|].
    rewrite rooms_unregister in Hk. apply lookup_delete_Some in Hk as [_ Hk].
    by apply (Hcap k).
  - unfold on_leave_room.
    destruct (sockets st !! sid) as [socket|]; [|apply Hcap].
    destruct (Socket.roomId socket) as [roomId|]; [|apply Hcap].
    destruct (truthy roomId); simpl; [|apply Hcap].
    destruct (rooms st !! roomId) as [room|] eqn:Hroom; [|apply Hcap].
    by apply depart_capacity.
  - unfold on_disconnect.
    destruct (sockets st !! sid) as [socket|]; [|apply Hcap].
    destruct (Socket.roomId socket) as [roomId|]; [|apply Hcap].
    destruct (truthy roomId); simpl; [|apply Hcap].
    destruct (rooms st !! roomId) as [room|] eqn:Hroom; [|apply Hcap].
    by apply depart_capacity.
  - rewrite sweep_lookup. destruct (rooms st !! k) as [room|] eqn:Hk; [|done].
    destruct (stale now room); [done|]. intros [= <-]. by apply (Hcap k).
Qed.

Lemma join_uninterrupted_capacity sid roomId userId userName userAvatar st :
  suspended st = [] → within_capacity st →
  suspended (join_uninterrupted sid roomId userId userName userAvatar st).1 = []
  ∧ within_capacity
      (join_uninterrupted sid roomId userId userName userAvatar st).1.
Proof.
  intros Hsusp Hcap.
  destruct (join_uninterrupted_cases sid roomId userId userName userAvatar
              st Hsusp)
    as [-> | (r & socket & room & -> & Hs & Hroom & Hfree)]; [done|].
  rewrite (join_uninterrupted_success _ _ _ _ _ _ _ _ Hsusp Hs Hroom Hfree).
  split; [done|]. intros k room'. simpl.
  intros [[<- <-]|[_ Hk]]%lookup_insert_Some; [|by apply (Hcap k)].
  simpl. unfold set_add. case_bool_decide; [lia|].
  rewrite length_app. simpl. lia.
Qed.

Lemma serial_invariants st :
  serial st →
  reachable st ∧ suspended st = []
  ∧ ∀ roomId room,
      rooms st !! roomId = Some room → length (Room.participants room) ≤ 4.
Proof.
  induction 1 as [|st sid roomId userId userName userAvatar _ (Hst & Hsusp & Hcap)
                  |st ev _ (Hst & Hsusp & Hcap) Hok Hev].
  - split_and!; [constructor|done|done].
  - split.
    + apply (reachable_step _ ResumeJoin); [|done].
      by apply (reachable_step _
                  (JoinRoom sid roomId userId userName userAvatar)).
    + by apply join_uninterrupted_capacity.
  - split_and!.
    + by apply reachable_step.
    + by rewrite step_suspended.
    + by apply step_capacity.
Qed.

(** X18: when every join-room is resumed before the next event, no
    join is ever left suspended and no room ever holds more than four
    participants; such a run is one of the runs of the server. *)
Theorem serial_capacity st :
  serial st →
  reachable st ∧ suspended st = []
  ∧ ∀ roomId room,
      rooms st !! roomId = Some room → length (Room.participants room) ≤ 4.
Proof.
  intros Hserial. destruct (serial_invariants st Hserial) as (Hst & Hsusp & Hcap).
  split_and!; [exact Hst | exact Hsusp | exact Hcap].
Qed.

Lemma serial_capacity_witness :
  suspended
    (join_uninterrupted sock1 (Some room1) (Some "u1") (Some "Alice") (Some "a")
       (step (Connection sock1)
          (step (CreateRoom (Some "u1") None uuid1 1000 1001) initial).1).1).1
  = []
  ∧ length [Some "u1"] ≤ 4.
Proof.
  assert (serial
    (join_uninterrupted sock1 (Some room1) (Some "u1") (Some "Alice") (Some "a")
       (step (Connection sock1)
          (step (CreateRoom (Some "u1") None uuid1 1000 1001) initial).1).1).1)
    as Hserial.
  { apply serial_join. apply serial_step; [|vm_compute; done|done].
    apply serial_step; [constructor|vm_compute; done|done]. }
  destruct (serial_capacity _ Hserial) as (_ & Hsusp & Hcap).
  split; [exact Hsusp|].
  apply (Hcap room1
           (Room.mk room1 "video" (Some "u1") [Some "u1"] 1000 true 0)).
  vm_compute. reflexivity.
Defined.

(** ** Suspended joins and their room objects *)

Lemma holds_held st j : holds_room st j → is_Some (held_room j st).
Proof.
  unfold holds_room, held_room.
  destruct (rooms st !! Join.roomId j) as [room|].
  - case_bool_decide as Href; [eauto|].
    intros [(room' & [= <-] & Href')|[room' ->]]; [done | simpl; eauto].
  - intros [(room' & ? & _)|[room' ->]]; [done | simpl; eauto].
Qed.

Lemma holds_unregister k st j :
  holds_room st j → holds_room (unregister k st) j.
Proof.
  unfold unregister. destruct (rooms st !! k) as [room0|] eqn:Hk; [|done].
  intros [(room & Hr & Href)|Hd]; unfold holds_room; simpl.
  - destruct (decide (k = Join.roomId j)) as [->|Hne].
    + right. assert (room0 = room) as -> by congruence.
      rewrite Href, lookup_insert_eq. eauto.
    + left. exists room. by rewrite lookup_delete_ne.
  - right. destruct (decide (Room.ref room0 = Join.room j)) as [->|Hne].
    + rewrite lookup_insert_eq. eauto.
    + by rewrite lookup_insert_ne.
Qed.

Lemma holds_update st st' j :
  (∀ k room, rooms st !! k = Some room →
     ∃ room', rooms st' !! k = Some room' ∧ Room.ref room' = Room.ref room) →
  (∀ a, is_Some (detached st !! a) → is_Some (detached st' !! a)) →
  holds_room st j → holds_room st' j.
Proof.
  intros Hrooms Hdet [(room & Hr & Href)|Hd].
  - left. destruct (Hrooms _ _ Hr) as (room' & Hr' & Href').
    exists room'. split; [done | congruence].
  - right. by apply Hdet.
Qed.

Lemma holds_same_ref st r room room' rest j :
  rooms st !! r = Some room → Room.ref room' = Room.ref room →
  holds_room st j →
  holds_room
    (mkServer (<[r := room']> (rooms st)) (detached st) (next st)
       (fst rest) (fst (snd rest)) (snd (snd rest))) j.
Proof.
  intros Hr Href. apply holds_update; simpl; [|done].
  intros k room0 Hk. destruct (decide (r = k)) as [->|Hne].
  - exists room'. rewrite lookup_insert_eq. split; [done | congruence].
  - exists room0. by rewrite lookup_insert_ne.
Qed.

Lemma holds_depart roomId room socket st j :
  rooms st !! roomId = Some room → holds_room st j →
  holds_room (depart roomId room socket st).1 j.
Proof.
  intros Hroom Hj.
  pose proof (holds_same_ref st roomId room
    (Room.with_participants
       (set_delete (Socket.userId socket) (Room.participants room)) room)
    (delete (Socket.userId socket) (userSockets st),
     (sockets st, suspended st)) j Hroom eq_refl Hj) as Hj'.
  unfold depart. case_bool_decide; [|exact Hj'].
  by apply holds_unregister.
Qed.

Lemma holds_sweep_fold now l acc j :
  holds_room acc.1 j → holds_room (foldl (sweep_step now) acc l).1 j.
Proof.
  revert acc. induction l as [|[k room] l IH]; intros acc Hj; [done|].
  simpl. apply IH. unfold sweep_step. simpl.
  destruct (stale now room); [|done]. by apply holds_unregister.
Qed.

Lemma step_holds ev st :
  Forall (holds_room st) (suspended st) →
  Forall (holds_room (step ev st).1) (suspended (step ev st).1).
Proof.
  intros Hall. destruct ev; cbn [step fst];
    rewrite ?on_offer_state, ?on_answer_state, ?on_ice_candidate_state,
      ?on_user_status_state, ?on_ping_state; try done.
  - simpl. eapply Forall_impl; [exact Hall|]. intros j Hj.
    apply (holds_unregister ("assma-" ++ split_head "-"%char uuid)) in Hj.
    revert Hj. apply holds_update; simpl; [|done].
    intros k room Hk. rewrite rooms_unregister in Hk.
    apply lookup_delete_Some in Hk as [Hne Hk].
    exists room. rewrite lookup_insert_ne, rooms_unregister by done.
    by rewrite lookup_delete_ne.
  - unfold on_join_room.
    destruct (sockets st !! sid) as [socket|]; [|done].
    destruct roomId as [r|]; [|done]. simpl.
    destruct (rooms st !! r) as [room|] eqn:Hroom; [|done].
    case_bool_decide; [done|]. simpl. apply Forall_app. split.
    + eapply Forall_impl; [exact Hall|]. intros j. apply holds_update; simpl; eauto.
    + apply Forall_singleton. left. exists room. done.
  - unfold on_join_room_resume.
    destruct (suspended st) as [|j0 rest] eqn:Hsusp;
      [simpl; by rewrite Hsusp|].
    apply Forall_cons in Hall as [_ Hrest].
    destruct (held_room j0 st) as [[[] room]|] eqn:Hheld; simpl.
    + apply held_room_registered in Hheld.
      eapply Forall_impl; [exact Hrest|]. intros j.
      apply holds_update; simpl; [|done].
      intros k room0 Hk. destruct (decide (Join.roomId j0 = k)) as [<-|Hne].
      * eexists. rewrite lookup_insert_eq. split; [done|]. simpl. congruence.
      * exists room0. by rewrite lookup_insert_ne.
    + eapply Forall_impl; [exact Hrest|]. intros j.
      apply holds_update; simpl; [eauto|].
      intros a Ha. destruct (decide (Join.room j0 = a)) as [<-|Hne].
      * rewrite lookup_insert_eq. eauto.
      * by rewrite lookup_insert_ne.
    + eapply Forall_impl; [exact Hrest|]. intros j. apply holds_update; simpl; eauto.
  - unfold on_leave_room.
    destruct (sockets st !! sid) as [socket|]; [|done].
    destruct (Socket.roomId socket) as [roomId|]; [|done].
    destruct (truthy roomId); simpl; [|done].
    destruct (rooms st !! roomId) as [room|] eqn:Hroom; simpl.
    + eapply Forall_impl; [exact Hall|]. intros j Hj.
      by apply (holds_depart roomId room socket st j Hroom) in Hj.
    + eapply Forall_impl; [exact Hall|]. intros j. apply holds_update; simpl; eauto.
  - unfold on_disconnect.
    destruct (sockets st !! sid) as [socket|]; [|done].
    assert (Forall
      (holds_room
         (mkServer (rooms st) (detached st) (next st) (userSockets st)
            (delete sid (sockets st)) (suspended st))) (suspended st))
      as Hgone.
    { eapply Forall_impl; [exact Hall|]. intros j. apply holds_update; simpl; eauto. }
    destruct (Socket.roomId socket) as [roomId|]; [|done].
    destruct (truthy roomId); simpl; [|done].
    destruct (rooms st !! roomId) as [room|] eqn:Hroom; simpl; [|done].
    eapply Forall_impl; [exact Hall|]. intros j Hj.
    by apply (holds_depart roomId room socket st j Hroom) in Hj.
  - destruct (sweep_rest now st) as (_ & _ & _ & ->).
    eapply Forall_impl; [exact Hall|]. intros j.
    apply (holds_sweep_fold now _ (st, 0)).
Qed.

(** X19: in every reachable state each suspended join still holds a
    room object, in the registry under its room id or detached: the
    resumption of a join always finds the object it looked up, also
    after the room was deleted or replaced in the meantime. *)
Theorem suspended_joins_hold_rooms st j :
  reachable st → j ∈ suspended st →
  holds_room st j ∧ is_Some (held_room j st).
Proof.
  intros Hst Hj.
  assert (Forall (holds_room st) (suspended st)) as Hall.
  { clear j Hj. induction Hst as [|st ev _ IH _]; [constructor|].
    by apply step_holds. }
  rewrite Forall_forall in Hall. split; [by apply Hall|].
  by apply holds_held, Hall.
Qed.

Lemma suspended_joins_hold_rooms_witness :
  held_room (Join.mk sock2 room1 (Some "u2") (Some "Bob") (Some "🤖") 0)
    (run (one_member
          ++ [JoinRoom sock2 (Some room1) (Some "u2") (Some "Bob") (Some "🤖");
              LeaveRoom sock1])
       initial)
  = Some (false, Room.mk room1 "video" (Some "u1") [] 1000 true 0).
Proof.
  assert (reachable
    (run (one_member
          ++ [JoinRoom sock2 (Some room1) (Some "u2") (Some "Bob") (Some "🤖");
              LeaveRoom sock1])
       initial)) as Hst.
  { apply run_reachable; [constructor | vm_compute; repeat split]. }
  destruct (suspended_joins_hold_rooms _
    (Join.mk sock2 room1 (Some "u2") (Some "Bob") (Some "🤖") 0) Hst
    ltac:(vm_compute; left)) as [_ [held Hheld]].
  rewrite Hheld. vm_compute in Hheld. by injection Hheld as <-.
Defined.

(** ** Notifications in runs without overlapping listeners *)

Lemma step_subscribed ev st :
  runs_to_end ev → subscribed_to_own_room st →
  subscribed_to_own_room (step ev st).1.
Proof.
  intros Hev Hsub x s r. destruct ev; cbn [step fst runs_to_end] in *;
    try done;
    rewrite ?on_offer_state, ?on_answer_state, ?on_ice_candidate_state,
      ?on_user_status_state, ?on_ping_state; try apply Hsub.
  - simpl. intros [[<- <-]|[_ Hx]]%lookup_insert_Some; [done|].
    by apply (Hsub x).
  - unfold on_leave_room.
    destruct (sockets st !! sid) as [socket|]; [|apply Hsub].
    destruct (Socket.roomId socket) as [roomId|]; [|apply Hsub].
    destruct (truthy roomId); simpl; [|apply Hsub].
    destruct (rooms st !! roomId) as [room|]; simpl;
      (intros [[<- <-]|[_ Hx]]%lookup_insert_Some; [done|by apply (Hsub x)]).
  - unfold on_disconnect.
    destruct (sockets st !! sid) as [socket|]; [|apply Hsub].
    assert (sockets st !! x = Some s → Socket.roomId s = Some r →
            r ∈ Socket.joined s) as Hx by apply Hsub.
    destruct (Socket.roomId socket) as [roomId|]; simpl;
      [|(intros [_ Hlive]%lookup_delete_Some; by apply Hx)].
    destruct (truthy roomId); simpl; [|(intros [_ Hlive]%lookup_delete_Some; by apply Hx)].
    destruct (rooms st !! roomId) as [room|]; simpl;
      (intros [_ Hlive]%lookup_delete_Some; by apply Hx).
  - destruct (sweep_rest now st) as (_ & _ & -> & _). apply Hsub.
Qed.

Lemma serial_subscribed st : serial st → subscribed_to_own_room st.
Proof.
  induction 1 as [|st sid roomId userId userName userAvatar Hser IH
                  |st ev _ IH Hok Hev].
  - intros x s r Hx. done.
  - destruct (serial_invariants st Hser) as (_ & Hsusp & _).
    destruct (join_uninterrupted_cases sid roomId userId userName userAvatar
                st Hsusp)
      as [-> | (r & socket & room & -> & Hs & Hroom & Hfree)]; [done|].
    rewrite (join_uninterrupted_success _ _ _ _ _ _ _ _ Hsusp Hs Hroom Hfree).
    intros x s r'. simpl.
    intros [[<- <-]|[_ Hx]]%lookup_insert_Some; [|by apply (IH x)].
    simpl. intros [= <-]. apply elem_of_set_add. by left.
  - by apply step_subscribed.
Qed.

(** X20: in runs without overlapping listeners a connection that
    carries a room id is subscribed to that room's channel; hence the
    user-joined of a join-room reaches every other live connection
    whose room id is the room joined. *)
Theorem serial_join_notifies st sid socket roomId room userId userName userAvatar
    x s :
  serial st → sockets st !! sid = Some socket →
  rooms st !! roomId = Some room → length (Room.participants room) < 4 →
  x ≠ sid → sockets st !! x = Some s → Socket.roomId s = Some roomId →
  roomId ∈ Socket.joined s
  ∧ ∃ notice,
      (join_uninterrupted sid (Some roomId) userId userName userAvatar st).2
        !! 1 = Some notice
      ∧ message_of notice
        = user_joined userId userName userAvatar
            (length (set_add userId (Room.participants room)))
      ∧ x ∈ recipients
          (join_uninterrupted sid (Some roomId) userId userName userAvatar
             st).1 notice.
Proof.
  intros Hser Hs Hroom Hfree Hne Hx Hrid.
  destruct (serial_invariants st Hser) as (_ & Hsusp & _).
  pose proof (serial_subscribed st Hser x s roomId Hx Hrid) as Hin.
  split; [done|].
  rewrite (join_uninterrupted_success _ _ _ _ _ _ _ _ Hsusp Hs Hroom Hfree).
  eexists. split; [done|]. split; [done|].
  apply elem_of_recipients_to. exists s. simpl.
  rewrite lookup_insert_ne by done. split_and!; [done| |done]. by right.
Qed.

Lemma serial_join_notifies_witness :
  sock1 ∈ recipients
    (join_uninterrupted sock2 (Some room1) (Some "u2") (Some "Bob") (Some "🤖")
       (join_uninterrupted sock1 (Some room1) (Some "u1") (Some "Alice")
          (Some "a")
          (step (Connection sock2)
             (step (Connection sock1)
                (step (CreateRoom (Some "u1") None uuid1 1000 1001)
                   initial).1).1).1).1).1
    (socket_to sock2 room1
       (user_joined (Some "u2") (Some "Bob") (Some "🤖") 2)).
Proof.
  assert (serial
    (join_uninterrupted sock1 (Some room1) (Some "u1") (Some "Alice") (Some "a")
       (step (Connection sock2)
          (step (Connection sock1)
             (step (CreateRoom (Some "u1") None uuid1 1000 1001)
                initial).1).1).1).1) as Hserial.
  { apply serial_join. apply serial_step; [|vm_compute; done|done].
    apply serial_step; [|vm_compute; done|done].
    apply serial_step; [constructor|vm_compute; done|done]. }
  destruct (serial_join_notifies _ sock2 Socket.fresh room1
    (Room.mk room1 "video" (Some "u1") [Some "u1"] 1000 true 0)
    (Some "u2") (Some "Bob") (Some "🤖") sock1
    (Socket.mk (Some "u1") (Some "Alice") (Some "a") (Some room1) [room1])
    Hserial ltac:(vm_compute; reflexivity) ltac:(vm_compute; reflexivity)
    ltac:(simpl; lia) ltac:(discriminate) ltac:(vm_compute; reflexivity)
    ltac:(reflexivity)) as (_ & notice & Hat & _ & Hrec).
  vm_compute in Hat. injection Hat as <-. exact Hrec.
Defined.

(** ** Addresses of room objects *)

Lemma refs_ok_ext st st' :
  rooms st' = rooms st → detached st' = detached st → next st' = next st →
  refs_ok st → refs_ok st'.
Proof.
  intros Hr Hd Hn [H1 H2 H3 H4].
  split; rewrite ?Hr, ?Hd, ?Hn; done.
Qed.

Lemma refs_ok_unregister k st : refs_ok st → refs_ok (unregister k st).
Proof.
  intros Hok. pose proof Hok as [H1 H2 H3 H4]. unfold unregister.
  destruct (rooms st !! k) as [room|] eqn:Hk; [|done]. split; simpl.
  - intros k' room' [_ Hk']%lookup_delete_Some. by apply (H1 k').
  - intros a room' [[<- <-]|[_ Ha]]%lookup_insert_Some; [|by apply H2].
    split; [done|]. by apply (H1 k).
  - intros k1 k2 room1 room2 [_ Hk1]%lookup_delete_Some
      [_ Hk2]%lookup_delete_Some. by apply H3.
  - intros k' room' [Hne Hk']%lookup_delete_Some.
    rewrite lookup_insert_ne; [by apply (H4 k')|].
    intros Href. apply Hne. by apply (H3 k k' room room').
Qed.

Lemma refs_ok_same_ref st st' r room room' :
  rooms st !! r = Some room → Room.ref room' = Room.ref room →
  rooms st' = <[r := room']> (rooms st) → detached st' = detached st →
  next st' = next st → refs_ok st → refs_ok st'.
Proof.
  intros Hr Href Hrooms Hdet Hnext [H1 H2 H3 H4].
  assert (∀ k room0, rooms st' !! k = Some room0 →
            ∃ room1, rooms st !! k = Some room1
                     ∧ Room.ref room1 = Room.ref room0) as Hback.
  { intros k room0. rewrite Hrooms.
    intros [[<- <-]|[_ Hk]]%lookup_insert_Some; eauto. }
  split; rewrite ?Hdet, ?Hnext.
  - intros k room0 (room1 & Hk & <-)%Hback. by apply (H1 k).
  - done.
  - intros k1 k2 room1 room2 (r1 & Hk1 & <-)%Hback (r2 & Hk2 & <-)%Hback.
    by apply H3.
  - intros k room0 (room1 & Hk & <-)%Hback. by apply (H4 k).
Qed.

Lemma refs_ok_depart roomId room socket st :
  rooms st !! roomId = Some room → refs_ok st →
  refs_ok (depart roomId room socket st).1.
Proof.
  intros Hroom Hok.
  assert (refs_ok
    (mkServer
       (<[roomId := Room.with_participants
                      (set_delete (Socket.userId socket)
                         (Room.participants room)) room]> (rooms st))
       (detached st) (next st) (delete (Socket.userId socket) (userSockets st))
       (sockets st) (suspended st))) as Hok'
    by (by apply (refs_ok_same_ref st _ roomId room
                    (Room.with_participants
                       (set_delete (Socket.userId socket)
                          (Room.participants room)) room))).
  unfold depart. case_bool_decide; [|done]. by apply refs_ok_unregister.
Qed.

Lemma unregister_next k st : next (unregister k st) = next st.
Proof. apply unregister_rest. Qed.

Lemma refs_ok_sweep_fold now l acc :
  refs_ok acc.1 → refs_ok (foldl (sweep_step now) acc l).1.
Proof.
  revert acc. induction l as [|[k room] l IH]; intros acc Hok; [done|].
  simpl. apply IH. unfold sweep_step. simpl.
  destruct (stale now room); [|done]. by apply refs_ok_unregister.
Qed.

Lemma held_room_detached j st room :
  held_room j st = Some (false, room) →
  detached st !! Join.room j = Some room.
Proof.
  unfold held_room. destruct (rooms st !! Join.roomId j) as [room'|].
  - case_bool_decide; [done|].
    destruct (detached st !! Join.room j); simpl; congruence.
  - destruct (detached st !! Join.room j); simpl; congruence.
Qed.

Lemma step_refs_ok ev st : refs_ok st → refs_ok (step ev st).1.
Proof.
  intros Hok. destruct ev; cbn [step fst];
    rewrite ?on_offer_state, ?on_answer_state, ?on_ice_candidate_state,
      ?on_user_status_state, ?on_ping_state; try done.
  - pose proof (refs_ok_unregister ("assma-" ++ split_head "-"%char uuid) st Hok)
      as [H1 H2 H3 H4].
    rewrite unregister_next in H1, H2.
    assert (rooms (unregister ("assma-" ++ split_head "-"%char uuid) st)
              !! ("assma-" ++ split_head "-"%char uuid) = None) as Hfree
      by (rewrite rooms_unregister; apply lookup_delete_eq).
    split; simpl.
    + intros k room [[<- <-]|[_ Hk]]%lookup_insert_Some; simpl; [lia|].
      specialize (H1 _ _ Hk). lia.
    + intros a room Ha. destruct (H2 _ _ Ha). split; [done | lia].
    + intros k1 k2 room1 room2 [[<- <-]|[Hn1 Hk1]]%lookup_insert_Some
        [[<- <-]|[Hn2 Hk2]]%lookup_insert_Some; simpl; try done.
      * intros Href. specialize (H1 _ _ Hk2). lia.
      * intros Href. specialize (H1 _ _ Hk1). lia.
      * by apply H3.
    + intros k room [[<- <-]|[_ Hk]]%lookup_insert_Some; simpl.
      * destruct (detached (unregister ("assma-" ++ split_head "-"%char uuid) st)
                    !! next st) as [room|] eqn:Hd; [|done].
        destruct (H2 _ _ Hd). lia.
      * by apply (H4 k).
  - by apply (refs_ok_ext st).
  - unfold on_join_room.
    destruct (sockets st !! sid) as [socket|]; [|done].
    destruct roomId as [r|]; [|done]. simpl.
    destruct (rooms st !! r) as [room|]; [|done].
    case_bool_decide; [done|]. by apply (refs_ok_ext st).
  - unfold on_join_room_resume.
    destruct (suspended st) as [|j rest]; [done|].
    destruct (held_room j st) as [[[] room]|] eqn:Hheld; simpl.
    + apply held_room_registered in Hheld.
      by apply (refs_ok_same_ref st _ (Join.roomId j) room
                  (Room.with_participants
                     (set_add (Join.userId j) (Room.participants room)) room)).
    + apply held_room_detached in Hheld. pose proof Hok as [H1 H2 H3 H4].
      destruct (H2 _ _ Hheld) as [Href Hlt]. split; simpl; [done| |done|].
      * intros a room' [[<- <-]|[_ Ha]]%lookup_insert_Some; [done|].
        by apply H2.
      * intros k room' Hk. rewrite lookup_insert_ne; [by apply (H4 k)|].
        intros Heq. specialize (H4 _ _ Hk). congruence.
    + by apply (refs_ok_ext st).
  - unfold on_leave_room.
    destruct (sockets st !! sid) as [socket|]; [|done].
    destruct (Socket.roomId socket) as [roomId|]; [|done].
    destruct (truthy roomId); simpl; [|done].
    destruct (rooms st !! roomId) as [room|] eqn:Hroom;
      [|by apply (refs_ok_ext st)].
    pose proof (refs_ok_depart roomId room socket st Hroom Hok) as Hd.
    revert Hd. apply refs_ok_ext; simpl; [done..|].
    unfold depart. case_bool_decide; simpl; [|done].
    by rewrite unregister_next.
  - unfold on_disconnect.
    destruct (sockets st !! sid) as [socket|]; [|done].
    destruct (Socket.roomId socket) as [roomId|]; [|by apply (refs_ok_ext st)].
    destruct (truthy roomId); simpl; [|by apply (refs_ok_ext st)].
    destruct (rooms st !! roomId) as [room|] eqn:Hroom;
      [|by apply (refs_ok_ext st)].
    pose proof (refs_ok_depart roomId room socket st Hroom Hok) as Hd.
    revert Hd. apply refs_ok_ext; simpl; [done..|].
    unfold depart. case_bool_decide; simpl; [|done].
    by rewrite unregister_next.
  - apply (refs_ok_sweep_fold now _ (st, 0)). done.
Qed.

(** X21: room objects keep their identity.  In every reachable state
    the objects in the registry have different addresses, none of them
    is also among the detached objects, every detached object sits at
    its own address; and the object a suspended join finds is the one
    at the address it took before the [await]. *)
Theorem room_objects_keep_identity st :
  reachable st →
  refs_ok st
  ∧ ∀ j registered room,
      held_room j st = Some (registered, room) → Room.ref room = Join.room j.
Proof.
  intros Hst.
  assert (refs_ok st) as Hok.
  { induction Hst as [|st ev _ IH _]; [by split|]. by apply step_refs_ok. }
  split; [done|]. intros j [] room Hheld.
  - pose proof Hheld as Hreg%held_room_registered. unfold held_room in Hheld.
    rewrite Hreg in Hheld. case_bool_decide; [done|].
    by destruct (detached st !! Join.room j).
  - apply held_room_detached in Hheld. by apply (refs_detached st Hok).
Qed.

Lemma room_objects_keep_identity_witness :
  refs_ok (run two_joins_at_once initial).
Proof. apply room_objects_keep_identity. exact two_joins_at_once_reachable. Defined.
(** ** The walk-through of the specification, run on the model *)

Example walk_through :
  (join_uninterrupted sock1 (Some room1) (Some "u1") (Some "Alice") (Some "🙂")
     (run [CreateRoom (Some "u1") (Some "video") uuid1 1000 1001;
           Connection sock1; Connection sock2] initial)).2
  = [socket_emit sock1
       (room_joined room1 "video"
          [RosterEntry.mk (Some "u1") (Some "Alice") (Some "🙂") true] true);
     socket_to sock1 room1
       (user_joined (Some "u1") (Some "Alice") (Some "🙂") 1)]
  ∧ (join_uninterrupted sock2 (Some room1) (Some "u2") (Some "Bob") (Some "🤖")
       (run one_member initial)).2
    = [socket_emit sock2
         (room_joined room1 "video"
            [RosterEntry.mk (Some "u1") (Some "Participant") (Some "👤") true;
             RosterEntry.mk (Some "u2") (Some "Bob") (Some "🤖") true] false);
       socket_to sock2 room1
         (user_joined (Some "u2") (Some "Bob") (Some "🤖") 2)]
  ∧ (step (SendOffer sock2 (Some "u1") (Some "S") (Some "video") 2000)
       (run two_members initial)).2
    = [io_to sock1
         (offer (Some "u2") (Some "Bob") (Some "S") (Some "video") 2000)]
  ∧ (step (Disconnect sock1) (run two_members initial)).2
    = [io_to room1
         (user_disconnected (Some "u1") (Some "Alice") "disconnected")]
  ∧ Room.participants
      <$> rooms (run (two_members ++ [Disconnect sock1]) initial) !! room1
    = Some [Some "u2"]
  ∧ rooms (run (two_members ++ [Disconnect sock1; LeaveRoom sock2]) initial)
      !! room1
    = None.
Proof. split_and!; vm_compute; reflexivity. Qed.
